(** * Work-order index: a shallow embedding of the indexing core

    The development follows [wo_1_simple_implementation.py] (the index, the
    search, the statistics and the export/import of the canonical document)
    and [work_order_indexer.py] (the same index, plus the record normalizer
    [WorkOrderDiscovery._create_work_order_from_data] and its batch loop).

    Python values are modelled as follows:
    - [str] as [string] (the bytes of the text), [List[str]] as [list string];
    - a [dict] whose iteration order is observable (the primary store, a raw
      JSON object) as an insertion-ordered association list; a [dict] that is
      only looked up and counted (assignee, tag and token index) as [gmap];
    - a [set] as [gset];
    - a raised exception as the [Raise] branch of [result];
    - the standard library ([datetime], [hashlib], [re]) by executable
      definitions of the behaviour the code relies on, and the wall clock,
      [strptime], [fromtimestamp] and the optional [dateutil] package as the
      fields of an environment record. *)

From Stdlib Require Import ZArith String Ascii List Lia.
From stdpp Require Import base option list gmap strings pretty lexico sorting.

Set Default Proof Using "Type".
#[local] Set Warnings "-clear-no-such-hyp".

(** ** Exceptions *)

Inductive exn : Type :=
  | ValueError
  | TypeError
  | AttributeError
  | OverflowError
  | OSError.

Inductive result (A : Type) : Type :=
  | Ok (a : A)
  | Raise (e : exn).
Arguments Ok {A} a.
Arguments Raise {A} e.

#[export] Instance result_ret : MRet result := fun A a => Ok a.
#[export] Instance result_fmap : FMap result := fun A B f r =>
  match r with
  | Ok a => Ok (f a)
  | Raise e => Raise e
  end.
#[export] Instance result_bind : MBind result := fun A B k r =>
  match r with
  | Ok a => k a
  | Raise e => Raise e
  end.

Definition of_option {A : Type} (e : exn) (o : option A) : result A :=
  match o with
  | Some a => Ok a
  | None => Raise e
  end.

(** ** Text: [str.lower], [str.strip], [str.split] and [re.findall] *)

Module Text.

Definition code (c : ascii) : nat := nat_of_ascii c.

Definition between (lo hi : nat) (c : ascii) : bool :=
  (lo <=? code c) && (code c <=? hi).

Definition is_upper : ascii -> bool := between 65 90.
Definition is_lower : ascii -> bool := between 97 122.
Definition is_digit : ascii -> bool := between 48 57.

(** [\w] on ASCII text: a letter, a digit or the underscore. *)
Definition is_word_char (c : ascii) : bool :=
  is_upper c || is_lower c || is_digit c || (code c =? 95).

(** The characters [str.strip] removes: space, tab, newline, vertical tab,
    form feed, carriage return and the four separators 28-31. *)
Definition is_space (c : ascii) : bool :=
  (code c =? 32) || between 9 13 c || between 28 31 c.

Definition lower_char (c : ascii) : ascii :=
  if is_upper c then ascii_of_nat (code c + 32) else c.

Fixpoint lower (s : string) : string :=
  match s with
  | EmptyString => EmptyString
  | String c s' => String (lower_char c) (lower s')
  end.

Definition snoc (s : string) (c : ascii) : string := s +:+ String c EmptyString.

(** [re.findall(r'\b\w+\b', s)]: the maximal runs of word characters of [s],
    from left to right.  [cur] is the run being read. *)
Fixpoint findall_words_from (cur : string) (s : string) : list string :=
  match s with
  | EmptyString => if decide (cur = EmptyString) then [] else [cur]
  | String c s' =>
      if is_word_char c then findall_words_from (snoc cur c) s'
      else if decide (cur = EmptyString) then findall_words_from EmptyString s'
      else cur :: findall_words_from EmptyString s'
  end.

Definition findall_words (s : string) : list string :=
  findall_words_from EmptyString s.

(** [sep.join(parts)] *)
Fixpoint join (sep : string) (parts : list string) : string :=
  match parts with
  | [] => EmptyString
  | [p] => p
  | p :: ps => p +:+ sep +:+ join sep ps
  end.

(** [s.split(",")]: never empty, [",".join] is its inverse. *)
Fixpoint split_from (sep : ascii) (cur : string) (s : string) : list string :=
  match s with
  | EmptyString => [cur]
  | String c s' =>
      if decide (c = sep) then cur :: split_from sep EmptyString s'
      else split_from sep (snoc cur c) s'
  end.

Definition split (sep : ascii) (s : string) : list string :=
  split_from sep EmptyString s.

Fixpoint lstrip (s : string) : string :=
  match s with
  | EmptyString => EmptyString
  | String c s' => if is_space c then lstrip s' else s
  end.

Fixpoint rstrip (s : string) : string :=
  match s with
  | EmptyString => EmptyString
  | String c s' =>
      match rstrip s' with
      | EmptyString => if is_space c then EmptyString else String c EmptyString
      | r => String c r
      end
  end.

Definition strip (s : string) : string := rstrip (lstrip s).

(** [s[:n]] *)
Fixpoint prefix (n : nat) (s : string) : string :=
  match n, s with
  | S n', String c s' => String c (prefix n' s')
  | _, _ => EmptyString
  end.

End Text.

(** ** Enumerations and their [.value] strings *)

Inductive WorkOrderStatus : Type :=
  | QUEUED | IN_PROGRESS | COMPLETED | FAILED | CANCELLED
  | PENDING_APPROVAL | ON_HOLD.

Inductive WorkOrderPriority : Type :=
  | LOW | MEDIUM | HIGH | URGENT | CRITICAL.

#[export] Instance WorkOrderStatus_eq_dec : EqDecision WorkOrderStatus.
Proof. solve_decision. Defined.

#[export] Instance WorkOrderPriority_eq_dec : EqDecision WorkOrderPriority.
Proof. solve_decision. Defined.

(** Iteration order of [for status in WorkOrderStatus]. *)
Definition all_statuses : list WorkOrderStatus :=
  [QUEUED; IN_PROGRESS; COMPLETED; FAILED; CANCELLED; PENDING_APPROVAL; ON_HOLD].

Definition all_priorities : list WorkOrderPriority :=
  [LOW; MEDIUM; HIGH; URGENT; CRITICAL].

Definition status_value (s : WorkOrderStatus) : string :=
  match s with
  | QUEUED => "queued"
  | IN_PROGRESS => "in_progress"
  | COMPLETED => "completed"
  | FAILED => "failed"
  | CANCELLED => "cancelled"
  | PENDING_APPROVAL => "pending_approval"
  | ON_HOLD => "on_hold"
  end.

Definition priority_value (p : WorkOrderPriority) : string :=
  match p with
  | LOW => "low"
  | MEDIUM => "medium"
  | HIGH => "high"
  | URGENT => "urgent"
  | CRITICAL => "critical"
  end.

(** [WorkOrderStatus(value)]: the member with that value, [ValueError] when
    there is none. *)
Definition status_of_value (v : string) : result WorkOrderStatus :=
  of_option ValueError (List.find (fun s => bool_decide (status_value s = v)) all_statuses).

Definition priority_of_value (v : string) : result WorkOrderPriority :=
  of_option ValueError (List.find (fun p => bool_decide (priority_value p = v)) all_priorities).

(** ** [datetime]: naive date-times, [isoformat] and [fromisoformat] *)

Module Datetime.

Record t : Type := mk {
  year : N; month : N; day : N;
  hour : N; minute : N; second : N; microsecond : N }.

#[export] Instance eq_dec : EqDecision t.
Proof. solve_decision. Defined.

Definition is_leap (y : N) : bool :=
  ((y mod 4 =? 0) && (negb (y mod 100 =? 0) || (y mod 400 =? 0)))%N.

Definition days_in_month (y m : N) : N :=
  if (m =? 2)%N then (if is_leap y then 29 else 28)%N
  else if ((m =? 4) || (m =? 6) || (m =? 9) || (m =? 11))%N then 30%N
  else 31%N.

(** The range checks of the [datetime] constructor. *)
Definition valid (d : t) : bool :=
  ((1 <=? year d) && (year d <=? 9999) &&
   (1 <=? month d) && (month d <=? 12) &&
   (1 <=? day d) && (day d <=? days_in_month (year d) (month d)) &&
   (hour d <? 24) && (minute d <? 60) && (second d <? 60) &&
   (microsecond d <? 1000000))%N.

Definition digit_char (n : N) : ascii := ascii_of_N (48 + n).

Definition digit_value (c : ascii) : option N :=
  if Text.is_digit c then Some (N_of_ascii c - 48)%N else None.

(** [pad_to k n rest]: the last [k] decimal digits of [n], then [rest]. *)
Fixpoint pad_to (k : nat) (n : N) (rest : string) : string :=
  match k with
  | 0 => rest
  | S k' => pad_to k' (n / 10)%N (String (digit_char (n mod 10)%N) rest)
  end.

(** [d.isoformat()]: [YYYY-MM-DDTHH:MM:SS], followed by [.ffffff] when the
    microsecond is not zero. *)
Definition isoformat (d : t) : string :=
  pad_to 4 (year d) (String "-" (pad_to 2 (month d) (String "-" (pad_to 2 (day d)
    (String "T" (pad_to 2 (hour d) (String ":" (pad_to 2 (minute d) (String ":"
      (pad_to 2 (second d)
         (if (microsecond d =? 0)%N then EmptyString
          else String "." (pad_to 6 (microsecond d) EmptyString)))))))))))).

(** Read exactly [k] decimal digits. *)
Fixpoint take_num (k : nat) (acc : N) (s : string) : option (N * string) :=
  match k with
  | 0 => Some (acc, s)
  | S k' =>
      match s with
      | String c s' => d ← digit_value c; take_num k' (acc * 10 + d)%N s'
      | EmptyString => None
      end
  end.

Definition expect (c : ascii) (s : string) : option string :=
  match s with
  | String c' s' => if decide (c' = c) then Some s' else None
  | EmptyString => None
  end.

(** The fraction of a second: three or six digits up to the end. *)
Definition parse_fraction (s : string) : option N :=
  match take_num 6 0 s with
  | Some (us, EmptyString) => Some us
  | _ =>
      match take_num 3 0 s with
      | Some (ms, EmptyString) => Some (ms * 1000)%N
      | _ => None
      end
  end.

(** [HH[:MM[:SS[.fff[fff]]]]] *)
Definition parse_time (s : string) : option (N * N * N * N) :=
  '(h, s1) ← take_num 2 0 s;
  if decide (s1 = EmptyString) then Some (h, 0, 0, 0)%N else
  s2 ← expect ":" s1;
  '(mi, s3) ← take_num 2 0 s2;
  if decide (s3 = EmptyString) then Some (h, mi, 0, 0)%N else
  s4 ← expect ":" s3;
  '(sec, s5) ← take_num 2 0 s4;
  if decide (s5 = EmptyString) then Some (h, mi, sec, 0%N) else
  s6 ← expect "." s5;
  us ← parse_fraction s6;
  Some (h, mi, sec, us).

Definition parse_iso (s : string) : option t :=
  '(y, s1) ← take_num 4 0 s;
  s2 ← expect "-" s1;
  '(m, s3) ← take_num 2 0 s2;
  s4 ← expect "-" s3;
  '(d, s5) ← take_num 2 0 s4;
  match s5 with
  | EmptyString => Some (mk y m d 0 0 0 0)
  | String _ s6 =>
      '(h, mi, sec, us) ← parse_time s6;
      Some (mk y m d h mi sec us)
  end.

(** [datetime.fromisoformat(s)] for naive date-times, in the grammar
    [YYYY-MM-DD[*HH[:MM[:SS[.fff[fff]]]]]] where [*] is any one character;
    [ValueError] on any other text and on out-of-range fields.  Strings with
    a UTC offset (which give aware date-times) are outside this model. *)
Definition fromisoformat (s : string) : result t :=
  match parse_iso s with
  | Some d => if valid d then Ok d else Raise ValueError
  | None => Raise ValueError
  end.

End Datetime.

(** ** Insertion-ordered dictionaries with string keys *)

Module Dict.
Section dict.
Context {V : Type}.

(** [d.get(k)] *)
Fixpoint lookup (d : list (string * V)) (k : string) : option V :=
  match d with
  | [] => None
  | (k', v) :: d' => if decide (k' = k) then Some v else lookup d' k
  end.

(** [d[k] = v]: in place when the key is present, appended otherwise. *)
Fixpoint set (d : list (string * V)) (k : string) (v : V) : list (string * V) :=
  match d with
  | [] => [(k, v)]
  | (k', v') :: d' => if decide (k' = k) then (k, v) :: d' else (k', v') :: set d' k v
  end.

Definition keys (d : list (string * V)) : list string := d.*1.
Definition values (d : list (string * V)) : list V := d.*2.

End dict.
End Dict.

(** ** JSON-compatible Python values

    The values a raw record and a [metadata] mapping hold: what
    [json.loads] produces (floats left out).  A [dict] is an association
    list in insertion order, with string keys. *)

Module Py.

#[warnings="-register-all"]
Inductive value : Type :=
  | VNone
  | VBool (b : bool)
  | VInt (z : Z)
  | VStr (s : string)
  | VList (l : list value)
  | VDict (d : list (string * value)).

(** Truth value: [None], [False], [0], [''], [[]] and [{}] are false. *)
Definition truthy (v : value) : bool :=
  match v with
  | VNone => false
  | VBool b => b
  | VInt z => negb (z =? 0)%Z
  | VStr s => negb (bool_decide (s = EmptyString))
  | VList l => negb (bool_decide (length l = 0))
  | VDict d => negb (bool_decide (length d = 0))
  end.

(** [key in d] *)
Definition contains (d : list (string * value)) (k : string) : bool :=
  bool_decide (is_Some (Dict.lookup d k)).

(** [d.get(key, default)] *)
Definition get (d : list (string * value)) (k : string) (dflt : value) : value :=
  default dflt (Dict.lookup d k).

(** The double quote character. *)
Definition dquote : ascii := ascii_of_nat 34.

Definition hex_digit (n : nat) : ascii :=
  ascii_of_nat (if n <? 10 then 48 + n else 87 + n).

(** [repr] of a [str]: single quotes unless the text has a single quote and
    no double quote; backslash, the quote, tab, newline and carriage return
    escaped, other control characters as [\xNN]. *)
Definition repr_char (quote : ascii) (c : ascii) (rest : string) : string :=
  let n := Text.code c in
  if decide (c = "\"%char) then String "\" (String "\" rest)
  else if decide (c = quote) then String "\" (String c rest)
  else if n =? 9 then String "\" (String "t" rest)
  else if n =? 10 then String "\" (String "n" rest)
  else if n =? 13 then String "\" (String "r" rest)
  else if (n <? 32) || (n =? 127) then
    String "\" (String "x" (String (hex_digit (n / 16)) (String (hex_digit (n mod 16)) rest)))
  else String c rest.

Fixpoint repr_chars (quote : ascii) (s : string) (rest : string) : string :=
  match s with
  | EmptyString => rest
  | String c s' => repr_char quote c (repr_chars quote s' rest)
  end.

Fixpoint has_char (c : ascii) (s : string) : bool :=
  match s with
  | EmptyString => false
  | String c' s' => bool_decide (c' = c) || has_char c s'
  end.

Definition repr_str (s : string) : string :=
  let quote : ascii :=
    if has_char "'" s && negb (has_char dquote s) then dquote else "'"%char in
  String quote (repr_chars quote s (String quote EmptyString)).

Fixpoint repr (v : value) : string :=
  match v with
  | VNone => "None"
  | VBool true => "True"
  | VBool false => "False"
  | VInt z => pretty z
  | VStr s => repr_str s
  | VList l => "[" +:+ Text.join ", " (List.map repr l) +:+ "]"
  | VDict d =>
      "{" +:+ Text.join ", " (List.map (fun kv => repr_str kv.1 +:+ ": " +:+ repr kv.2) d) +:+ "}"
  end.

(** [str(v)]: the text itself for a [str], [repr] otherwise. *)
Definition str (v : value) : string :=
  match v with
  | VStr s => s
  | _ => repr v
  end.

End Py.

(** ** [hashlib.md5(...).hexdigest()] (RFC 1321) on 32-bit words held in [Z] *)

Module MD5.

Definition mask32 (x : Z) : Z := (x mod 2 ^ 32)%Z.

Definition not32 (x : Z) : Z := Z.lxor x (2 ^ 32 - 1)%Z.

Definition rotl (x c : Z) : Z :=
  mask32 (Z.lor (Z.shiftl x c) (Z.shiftr x (32 - c))).

Definition shifts : list Z :=
  [7; 12; 17; 22; 7; 12; 17; 22; 7; 12; 17; 22; 7; 12; 17; 22;
   5; 9; 14; 20; 5; 9; 14; 20; 5; 9; 14; 20; 5; 9; 14; 20;
   4; 11; 16; 23; 4; 11; 16; 23; 4; 11; 16; 23; 4; 11; 16; 23;
   6; 10; 15; 21; 6; 10; 15; 21; 6; 10; 15; 21; 6; 10; 15; 21]%Z.

Definition K : list Z :=
  [3614090360; 3905402710; 606105819; 3250441966; 4118548399; 1200080426;
   2821735955; 4249261313; 1770035416; 2336552879; 4294925233; 2304563134;
   1804603682; 4254626195; 2792965006; 1236535329; 4129170786; 3225465664;
   643717713; 3921069994; 3593408605; 38016083; 3634488961; 3889429448;
   568446438; 3275163606; 4107603335; 1163531501; 2850285829; 4243563512;
   1735328473; 2368359562; 4294588738; 2272392833; 1839030562; 4259657740;
   2763975236; 1272893353; 4139469664; 3200236656; 681279174; 3936430074;
   3572445317; 76029189; 3654602809; 3873151461; 530742520; 3299628645;
   4096336452; 1126891415; 2878612391; 4237533241; 1700485571; 2399980690;
   4293915773; 2240044497; 1873313359; 4264355552; 2734768916; 1309151649;
   4149444226; 3174756917; 718787259; 3951481745]%Z.

Fixpoint bytes_of (s : string) : list Z :=
  match s with
  | EmptyString => []
  | String c s' => Z.of_N (N_of_ascii c) :: bytes_of s'
  end.

(** [n] bytes of [x], least significant first. *)
Fixpoint le_bytes (n : nat) (x : Z) : list Z :=
  match n with
  | 0 => []
  | S n' => (x mod 256)%Z :: le_bytes n' (x / 256)%Z
  end.

(** The message, a 1 bit, zeros up to 56 modulo 64 bytes, then the bit
    length on 8 bytes. *)
Definition padded (msg : list Z) : list Z :=
  let len := length msg in
  msg ++ [128%Z] ++ repeat 0%Z ((119 - len mod 64) mod 64)
      ++ le_bytes 8 (8 * Z.of_nat len)%Z.

Fixpoint le_words (bytes : list Z) : list Z :=
  match bytes with
  | b0 :: b1 :: b2 :: b3 :: rest =>
      (b0 + 256 * (b1 + 256 * (b2 + 256 * b3)))%Z :: le_words rest
  | _ => []
  end.

Definition state : Type := Z * Z * Z * Z.

Definition init : state :=
  (1732584193, 4023233417, 2562383102, 271733878)%Z.

Definition round (M : list Z) (st : state) (i : nat) : state :=
  let '(A, B, C, D) := st in
  let '(F, g) :=
    if i <? 16 then (Z.lor (Z.land B C) (Z.land (not32 B) D), i)
    else if i <? 32 then (Z.lor (Z.land D B) (Z.land (not32 D) C), (5 * i + 1) mod 16)
    else if i <? 48 then (Z.lxor (Z.lxor B C) D, (3 * i + 5) mod 16)
    else (Z.lxor C (Z.lor B (not32 D)), (7 * i) mod 16) in
  let F' := mask32 (F + A + nth i K 0 + nth g M 0)%Z in
  (D, mask32 (B + rotl F' (nth i shifts 0))%Z, B, C).

Definition process_chunk (st : state) (chunk : list Z) : state :=
  let M := le_words chunk in
  let '(A, B, C, D) := fold_left (round M) (seq 0 64) st in
  let '(a0, b0, c0, d0) := st in
  (mask32 (a0 + A), mask32 (b0 + B), mask32 (c0 + C), mask32 (d0 + D))%Z.

Fixpoint process (fuel : nat) (st : state) (bytes : list Z) : state :=
  match fuel, bytes with
  | S fuel', _ :: _ => process fuel' (process_chunk st (take 64 bytes)) (drop 64 bytes)
  | _, _ => st
  end.

Definition hex_byte (b : Z) (rest : string) : string :=
  String (Py.hex_digit (Z.to_nat (b / 16 mod 16)))
    (String (Py.hex_digit (Z.to_nat (b mod 16))) rest).

Definition hex_word (w : Z) (rest : string) : string :=
  hex_byte w (hex_byte (w / 256) (hex_byte (w / 65536) (hex_byte (w / 16777216) rest))).

Definition hexdigest (s : string) : string :=
  let bytes := padded (bytes_of s) in
  let '(a, b, c, d) := process (length bytes) init bytes in
  hex_word a (hex_word b (hex_word c (hex_word d EmptyString))).

End MD5.

(** ** The [WorkOrder] dataclass and its serialized form *)

(** What [to_dict] returns and [from_dict] receives: enumerations as their
    value strings, time stamps as ISO-8601 text. *)
Module WorkOrderDict.

Record t : Type := mk {
  id : string;
  title : string;
  description : string;
  status : string;
  priority : string;
  created_at : string;
  updated_at : string;
  assigned_to : option string;
  due_date : option string;
  tags : list string;
  metadata : list (string * Py.value);
  source : string }.

End WorkOrderDict.

Module WorkOrder.

Record t : Type := mk {
  id : string;
  title : string;
  description : string;
  status : WorkOrderStatus;
  priority : WorkOrderPriority;
  created_at : Datetime.t;
  updated_at : Datetime.t;
  assigned_to : option string;
  due_date : option Datetime.t;
  tags : list string;
  metadata : list (string * Py.value);
  source : string }.

Definition to_dict (self : t) : WorkOrderDict.t :=
  WorkOrderDict.mk (id self) (title self) (description self)
    (status_value (status self)) (priority_value (priority self))
    (Datetime.isoformat (created_at self)) (Datetime.isoformat (updated_at self))
    (assigned_to self)
    (Datetime.isoformat <$> due_date self)
    (tags self) (metadata self) (source self).

(** [from_dict]: the enumeration look-ups and [fromisoformat] raise
    [ValueError]; a missing or empty [due_date] is left as it is (an empty
    string counts as absent, here and in [to_dict]). *)
Definition from_dict (data : WorkOrderDict.t) : result t :=
  st ← status_of_value (WorkOrderDict.status data);
  pr ← priority_of_value (WorkOrderDict.priority data);
  created ← Datetime.fromisoformat (WorkOrderDict.created_at data);
  updated ← Datetime.fromisoformat (WorkOrderDict.updated_at data);
  due ← match WorkOrderDict.due_date data with
        | Some s =>
            if decide (s = EmptyString) then Ok None
            else Some <$> Datetime.fromisoformat s
        | None => Ok None
        end;
  Ok (mk (WorkOrderDict.id data) (WorkOrderDict.title data)
        (WorkOrderDict.description data) st pr created updated
        (WorkOrderDict.assigned_to data) due
        (WorkOrderDict.tags data) (WorkOrderDict.metadata data)
        (WorkOrderDict.source data)).

(** The text that is tokenized for search. *)
Definition searchable_text (self : t) : string :=
  title self +:+ " " +:+ description self +:+ " " +:+ Text.join " " (tags self).

Definition words (self : t) : list string :=
  Text.findall_words (Text.lower (searchable_text self)).

End WorkOrder.

(** The time stamps of a work order are in the range of [datetime]. *)
Definition valid_stamps (wo : WorkOrder.t) : Prop :=
  Datetime.valid (WorkOrder.created_at wo) = true ∧
  Datetime.valid (WorkOrder.updated_at wo) = true ∧
  from_option (fun d => Datetime.valid d = true) True (WorkOrder.due_date wo).

(** ** [WorkOrderIndex] *)

Record Statistics : Type := mkStatistics {
  total_work_orders : nat;
  status_distribution : list (string * nat);
  priority_distribution : list (string * nat);
  assigned_count : nat;
  tags_count : nat;
  search_index_size : nat }.

(** The export document; [json.dumps] followed by [json.loads] is the
    identity on it. *)
Record Document : Type := mkDocument {
  doc_work_orders : list WorkOrderDict.t;
  doc_statistics : Statistics;
  doc_exported_at : string }.

Module WorkOrderIndex.

Record t : Type := mk {
  work_orders : list (string * WorkOrder.t);
  index_by_status : WorkOrderStatus -> list string;
  index_by_priority : WorkOrderPriority -> list string;
  index_by_assigned : gmap string (list string);
  index_by_tags : gmap string (list string);
  search_index : gmap string (list string) }.

(** [__init__]: empty store, an empty bucket for every status and priority. *)
Definition init : t := mk [] (fun _ => []) (fun _ => []) ∅ ∅ ∅.

(** [bucket[key].append(x)] on a total bucket table. *)
Definition append_at `{EqDecision K} (f : K -> list string) (key : K) (x : string)
    : K -> list string :=
  fun k => if decide (k = key) then f k ++ [x] else f k.

(** [if key not in m: m[key] = []] followed by [m[key].append(x)]. *)
Definition append_to (m : gmap string (list string)) (key x : string)
    : gmap string (list string) :=
  <[key := default [] (m !! key) ++ [x]]> m.

(** One turn of the loop of [_update_search_index]. *)
Definition index_word (wo_id : string) (m : gmap string (list string)) (word : string)
    : gmap string (list string) :=
  let m' := match m !! word with
            | None => <[word := []]> m
            | Some _ => m
            end in
  let ids := default [] (m' !! word) in
  if decide (wo_id ∈ ids) then m' else <[word := ids ++ [wo_id]]> m'.

Definition _update_search_index (m : gmap string (list string)) (work_order : WorkOrder.t)
    : gmap string (list string) :=
  fold_left (index_word (WorkOrder.id work_order)) (WorkOrder.words work_order) m.

(** [if work_order.assigned_to:] holds for a non-empty string. *)
Definition assignee (work_order : WorkOrder.t) : option string :=
  match WorkOrder.assigned_to work_order with
  | Some a => if decide (a = EmptyString) then None else Some a
  | None => None
  end.

Definition add_work_order (self : t) (work_order : WorkOrder.t) : t :=
  let wo_id := WorkOrder.id work_order in
  mk (Dict.set (work_orders self) wo_id work_order)
     (append_at (index_by_status self) (WorkOrder.status work_order) wo_id)
     (append_at (index_by_priority self) (WorkOrder.priority work_order) wo_id)
     (match assignee work_order with
      | Some a => append_to (index_by_assigned self) a wo_id
      | None => index_by_assigned self
      end)
     (fold_left (fun m tag => append_to m tag wo_id) (WorkOrder.tags work_order)
        (index_by_tags self))
     (_update_search_index (search_index self) work_order).

Definition get_work_order (self : t) (work_order_id : string) : option WorkOrder.t :=
  Dict.lookup (work_orders self) work_order_id.

(** [[self.work_orders[i] for i in ids if i in self.work_orders]] *)
Definition records (self : t) (ids : list string) : list WorkOrder.t :=
  omap (Dict.lookup (work_orders self)) ids.

(** One turn of the loop of [search_work_orders]. *)
Definition narrow (m : gmap string (list string)) (matching_ids : gset string)
    (word : string) : gset string :=
  match m !! word with
  | Some ids =>
      if decide (matching_ids = ∅) then list_to_set ids
      else matching_ids ∩ list_to_set ids
  | None => matching_ids
  end.

Definition matching (self : t) (query : string) : gset string :=
  fold_left (narrow (search_index self)) (Text.findall_words (Text.lower query)) ∅.

(** The result is listed in the iteration order of a set, which callers
    must not rely on. *)
Definition search_work_orders (self : t) (query : string) : list WorkOrder.t :=
  records self (elements (matching self query)).

Definition get_work_orders_by_status (self : t) (status : WorkOrderStatus)
    : list WorkOrder.t :=
  records self (index_by_status self status).

Definition get_work_orders_by_priority (self : t) (priority : WorkOrderPriority)
    : list WorkOrder.t :=
  records self (index_by_priority self priority).

Definition get_work_orders_by_assigned (self : t) (assigned_to : string)
    : list WorkOrder.t :=
  records self (default [] (index_by_assigned self !! assigned_to)).

Definition get_work_orders_by_tag (self : t) (tag : string) : list WorkOrder.t :=
  records self (default [] (index_by_tags self !! tag)).

Definition get_queued_work_orders (self : t) : list WorkOrder.t :=
  get_work_orders_by_status self QUEUED.

Definition get_statistics (self : t) : Statistics :=
  mkStatistics
    (length (work_orders self))
    ((fun s => (status_value s, length (index_by_status self s))) <$> all_statuses)
    ((fun p => (priority_value p, length (index_by_priority self p))) <$> all_priorities)
    (size (index_by_assigned self))
    (size (index_by_tags self))
    (size (search_index self)).

(** [now] is the reading of the clock at the time of the export. *)
Definition export_to_json (self : t) (now : Datetime.t) : Document :=
  mkDocument (WorkOrder.to_dict <$> Dict.values (work_orders self))
    (get_statistics self) (Datetime.isoformat now).

(** The loop of [import_from_json]: an exception of [from_dict] leaves the
    loop and the call; what was added before it stays. *)
Fixpoint import_records (self : t) (records : list WorkOrderDict.t) : t * result unit :=
  match records with
  | [] => (self, Ok ())
  | wo_data :: rest =>
      match WorkOrder.from_dict wo_data with
      | Ok work_order => import_records (add_work_order self work_order) rest
      | Raise e => (self, Raise e)
      end
  end.

Definition import_from_json (self : t) (json_data : Document) : t * result unit :=
  import_records self (doc_work_orders json_data).

(** The index after the calls [add_work_order(wo)] for [wo] in [wos]. *)
Definition add_all (self : t) (wos : list WorkOrder.t) : t :=
  fold_left add_work_order wos self.

End WorkOrderIndex.

(** Every posting list that exists holds at least one identifier. *)
Definition postings_nonempty (m : gmap string (list string)) : Prop :=
  ∀ w ids, m !! w = Some ids → ids ≠ [].

(** The status index holds no stale membership: an identifier is listed under
    a status only if the stored record with that identifier has that status. *)
Definition status_index_reflects_store (idx : WorkOrderIndex.t) : Prop :=
  ∀ i s, i ∈ WorkOrderIndex.index_by_status idx s →
    ∃ wo, WorkOrderIndex.get_work_order idx i = Some wo ∧ WorkOrder.status wo = s.


(** A serialized record that [from_dict] cannot read: its status or priority
    is not the value of a member, or one of its time stamps is not ISO-8601. *)
Definition unparsable (d : WorkOrderDict.t) : Prop :=
  status_of_value (WorkOrderDict.status d) = Raise ValueError
  ∨ priority_of_value (WorkOrderDict.priority d) = Raise ValueError
  ∨ Datetime.fromisoformat (WorkOrderDict.created_at d) = Raise ValueError
  ∨ Datetime.fromisoformat (WorkOrderDict.updated_at d) = Raise ValueError
  ∨ (∃ s, WorkOrderDict.due_date d = Some s ∧ s ≠ EmptyString
          ∧ Datetime.fromisoformat s = Raise ValueError).

(** Every readable record of the document is in the index after the import
    into a fresh index. *)
Definition import_keeps_readable (doc : Document) : Prop :=
  ∀ d wo, d ∈ doc_work_orders doc → WorkOrder.from_dict d = Ok wo →
    is_Some (WorkOrderIndex.get_work_order
               (WorkOrderIndex.import_from_json WorkOrderIndex.init doc).1
               (WorkOrder.id wo)).

(** The statistics of the index survive an export and an import into a fresh
    index. *)
Definition round_trip_keeps_statistics (idx : WorkOrderIndex.t) (now : Datetime.t) : Prop :=
  WorkOrderIndex.get_statistics
    (WorkOrderIndex.import_from_json WorkOrderIndex.init
       (WorkOrderIndex.export_to_json idx now)).1
  = WorkOrderIndex.get_statistics idx.


(** ** Worked examples *)

Module Example.

Definition stamp : Datetime.t := Datetime.mk 2024 1 15 9 30 0 0.

(** The two records of the concrete scenario. *)
Definition wo_1 : WorkOrder.t :=
  WorkOrder.mk "wo_1" "Fix login bug" "auth fails" QUEUED HIGH stamp stamp
    None None ["bug"; "auth"] [] "8090_factory".

Definition wo_2 : WorkOrder.t :=
  WorkOrder.mk "wo_2" "Add dashboard" "" IN_PROGRESS MEDIUM stamp stamp
    (Some "dev@example.com") None ["feature"] [] "8090_factory".

(** [wo_1] once it is done, added again under the same identifier. *)
Definition wo_1_done : WorkOrder.t :=
  WorkOrder.mk "wo_1" "Fix login bug" "auth fails" COMPLETED HIGH stamp stamp
    None None ["bug"; "auth"] [] "8090_factory".

Definition two_orders : WorkOrderIndex.t :=
  WorkOrderIndex.add_all WorkOrderIndex.init [wo_1; wo_2].

Definition readded : WorkOrderIndex.t :=
  WorkOrderIndex.add_all WorkOrderIndex.init [wo_1; wo_1_done].

(** [wo_1] serialized with a status that is no member of the enumeration. *)
Definition bad_status : WorkOrderDict.t :=
  WorkOrderDict.mk "wo_1" "Fix login bug" "auth fails" "waiting" "high"
    "2024-01-15T09:30:00" "2024-01-15T09:30:00" None None ["bug"; "auth"] []
    "8090_factory".

(** A document whose first record is unreadable and whose second is fine. *)
Definition doc_bad_then_good : Document :=
  mkDocument [bad_status; WorkOrder.to_dict wo_2]
    (WorkOrderIndex.get_statistics two_orders) "2024-01-15T09:30:00".

(** Three more records, created on different days. *)
Definition at_day (n : N) : Datetime.t := Datetime.mk 2024 1 n 9 30 0 0.

Definition wo_3 : WorkOrder.t :=
  WorkOrder.mk "wo_3" "Update docs" "" QUEUED LOW (at_day 20) (at_day 20)
    None None ["docs"] [] "8090_factory".

Definition wo_4 : WorkOrder.t :=
  WorkOrder.mk "wo_4" "Tune queries" "" QUEUED MEDIUM (at_day 10) (at_day 10)
    None None [] [] "8090_factory".

Definition four_orders : WorkOrderIndex.t :=
  WorkOrderIndex.add_all WorkOrderIndex.init [wo_1; wo_2; wo_3; wo_4].

End Example.

(** ** The record normalizer of [WorkOrderDiscovery] *)

(** What the normalizer takes from its host: one reading of the clock per
    record, [datetime.fromtimestamp] (which raises on a number out of range),
    [datetime.strptime] ([None] for its [ValueError]) and, when the package is
    installed, [dateutil.parser.parse] (which raises on text it cannot read). *)
Record Env : Type := mkEnv {
  now : Datetime.t;
  fromtimestamp : Z -> result Datetime.t;
  strptime : string -> string -> option Datetime.t;
  dateutil_parse : option (string -> result Datetime.t) }.

Inductive log_entry : Type :=
  | LogDebug (event : string) (work_order_id : string) (title : Py.value)
  | LogError (event : string) (error : exn) (data : Py.value).

(** A [WorkOrder] as the normalizer builds it.  The dataclass does not check
    the types of its fields: title, description, assignee and the tags hold
    whatever the raw record held under their keys. *)
Module Discovered.

Record t : Type := mk {
  id : string;
  title : Py.value;
  description : Py.value;
  status : WorkOrderStatus;
  priority : WorkOrderPriority;
  created_at : Datetime.t;
  updated_at : Datetime.t;
  assigned_to : Py.value;
  due_date : option Datetime.t;
  tags : list Py.value;
  metadata : list (string * Py.value);
  source : string }.

End Discovered.

Module WorkOrderDiscovery.

Definition status_mapping : list (string * WorkOrderStatus) :=
  [("queued", QUEUED); ("pending", QUEUED);
   ("in_progress", IN_PROGRESS); ("active", IN_PROGRESS);
   ("completed", COMPLETED); ("done", COMPLETED);
   ("failed", FAILED); ("error", FAILED);
   ("cancelled", CANCELLED); ("cancelled", CANCELLED);
   ("on_hold", ON_HOLD); ("paused", ON_HOLD)].

Definition priority_mapping : list (string * WorkOrderPriority) :=
  [("low", LOW); ("medium", MEDIUM); ("high", HIGH);
   ("urgent", URGENT); ("critical", CRITICAL)].

Definition formats : list string :=
  ["%Y-%m-%dT%H:%M:%S.%fZ"; "%Y-%m-%dT%H:%M:%SZ"; "%Y-%m-%dT%H:%M:%S";
   "%Y-%m-%d %H:%M:%S"; "%Y-%m-%d"].

(** The loop over the formats: the first one that parses wins. *)
Fixpoint first_format (env : Env) (timestamp : string) (fmts : list string)
    : option Datetime.t :=
  match fmts with
  | [] => None
  | fmt :: rest =>
      match strptime env timestamp fmt with
      | Some d => Some d
      | None => first_format env timestamp rest
      end
  end.

(** A JSON value is never a [datetime], so that branch of the source is not
    reached; [True] is an [int] for [isinstance]. *)
Definition _parse_timestamp (env : Env) (timestamp : Py.value) : result Datetime.t :=
  if negb (Py.truthy timestamp) then Ok (now env) else
  match timestamp with
  | Py.VInt z => fromtimestamp env z
  | Py.VBool b => fromtimestamp env (if b then 1 else 0)%Z
  | Py.VStr s =>
      match first_format env s formats with
      | Some d => Ok d
      | None =>
          match dateutil_parse env with
          | Some parse => parse s
          | None => Ok (now env)
          end
      end
  | _ => Ok (now env)
  end.

(** [v.lower()]: only a [str] has the method. *)
Definition lower_of (v : Py.value) : result string :=
  match v with
  | Py.VStr s => Ok (Text.lower s)
  | _ => Raise AttributeError
  end.

Definition canonical_keys : list string :=
  ["id"; "title"; "description"; "status"; "priority";
   "created_at"; "updated_at"; "due_date"; "assigned_to"; "tags"].

(** [status_mapping.get(status_str, WorkOrderStatus.QUEUED)] *)
Definition map_status (status_str : string) : WorkOrderStatus :=
  default QUEUED (Dict.lookup status_mapping status_str).

(** [priority_mapping.get(priority_str, WorkOrderPriority.MEDIUM)] *)
Definition map_priority (priority_str : string) : WorkOrderPriority :=
  default MEDIUM (Dict.lookup priority_mapping priority_str).

(** The chains of [data.get(key, data.get(key', ...))]: the value under the
    first key that is present, whatever that value is. *)
Definition raw_id (d : list (string * Py.value)) : Py.value :=
  Py.get d "id" (Py.get d "_id" (Py.get d "work_order_id" (Py.VStr ""))).

Definition raw_status (d : list (string * Py.value)) : Py.value :=
  Py.get d "status" (Py.get d "state" (Py.VStr "queued")).

Definition raw_priority (d : list (string * Py.value)) : Py.value :=
  Py.get d "priority" (Py.get d "urgency" (Py.VStr "medium")).

Definition raw_created (d : list (string * Py.value)) : Py.value :=
  Py.get d "created_at" (Py.get d "created" (Py.get d "timestamp" Py.VNone)).

Definition raw_updated (d : list (string * Py.value)) : Py.value :=
  Py.get d "updated_at" (Py.get d "updated" (Py.get d "modified" Py.VNone)).

Definition raw_due (d : list (string * Py.value)) : Py.value :=
  Py.get d "due_date" (Py.get d "deadline" (Py.get d "due" Py.VNone)).

(** The body of the [try] block. *)
Definition build (env : Env) (data : Py.value) (source_url : string)
    : result Discovered.t :=
  match data with
  | Py.VDict d =>
      let wo_id := Py.str (raw_id d) in
      let wo_id :=
        if decide (wo_id = "") then Text.prefix 12 (MD5.hexdigest (Py.str data))
        else wo_id in
      let title :=
        Py.get d "title" (Py.get d "name" (Py.get d "subject" (Py.VStr "Untitled Work Order"))) in
      let description :=
        Py.get d "description" (Py.get d "details" (Py.get d "summary" (Py.VStr ""))) in
      status_str ← lower_of (raw_status d);
      let status := map_status status_str in
      priority_str ← lower_of (raw_priority d);
      let priority := map_priority priority_str in
      created_at ← _parse_timestamp env (raw_created d);
      updated_at ← _parse_timestamp env (raw_updated d);
      due_date ← _parse_timestamp env (raw_due d);
      let assigned_to :=
        Py.get d "assigned_to" (Py.get d "assignee" (Py.get d "owner" Py.VNone)) in
      let assigned_to :=
        match assigned_to with
        | Py.VDict a =>
            if Py.truthy assigned_to
            then Py.get a "name" (Py.get a "email" (Py.VStr (Py.str assigned_to)))
            else assigned_to
        | _ => assigned_to
        end in
      let tags :=
        match Py.get d "tags" (Py.get d "labels" (Py.get d "categories" (Py.VList []))) with
        | Py.VStr s => (fun tag => Py.VStr (Text.strip tag)) <$> Text.split "," s
        | Py.VList l => l
        | _ => []
        end in
      let metadata :=
        Dict.set (List.filter (fun kv => negb (bool_decide (kv.1 ∈ canonical_keys))) d)
          "source_url" (Py.VStr source_url) in
      Ok (Discovered.mk wo_id title description status priority created_at updated_at
            assigned_to (Some due_date) tags metadata "8090_factory")
  | _ => Raise AttributeError
  end.

(** [try: ... except Exception as e: logger.error(..., data=data); return None] *)
Definition _create_work_order_from_data (env : Env) (data : Py.value) (source_url : string)
    : option Discovered.t * list log_entry :=
  match build env data source_url with
  | Ok work_order =>
      (Some work_order,
       [LogDebug "Created work order from data" (Discovered.id work_order)
          (Discovered.title work_order)])
  | Raise e => (None, [LogError "Failed to create work order from data" e data])
  end.

Definition work_order_patterns : list string :=
  ["work_orders"; "workOrders"; "tasks"; "jobs"; "orders";
   "queue"; "pending"; "assigned"; "work_items"].

(** The inner loop of [_extract_work_orders_from_dict]: the work orders that
    were built, in order, and what was logged. *)
Fixpoint normalize_items (env : Env) (source_url : string) (items : list Py.value)
    : list Discovered.t * list log_entry :=
  match items with
  | [] => ([], [])
  | item :: rest =>
      let '(work_order, log) := _create_work_order_from_data env item source_url in
      let '(work_orders, logs) := normalize_items env source_url rest in
      (match work_order with
       | Some wo => wo :: work_orders
       | None => work_orders
       end, log ++ logs)
  end.

Fixpoint extract_patterns (env : Env) (data : list (string * Py.value))
    (source_url : string) (patterns : list string)
    : list Discovered.t * list log_entry :=
  match patterns with
  | [] => ([], [])
  | pattern :: rest =>
      let '(found, log) :=
        match Dict.lookup data pattern with
        | Some (Py.VList items) => normalize_items env source_url items
        | _ => ([], [])
        end in
      let '(others, logs) := extract_patterns env data source_url rest in
      (found ++ others, log ++ logs)
  end.

Definition _extract_work_orders_from_dict (env : Env) (data : list (string * Py.value))
    (source_url : string) : list Discovered.t * list log_entry :=
  extract_patterns env data source_url work_order_patterns.

End WorkOrderDiscovery.

(** ** A host and raw records for the worked examples *)

Module Host.

(** The date of the day [z] days after 1970-01-01 (proleptic Gregorian). *)
Definition civil_from_days (z : Z) : Z * Z * Z :=
  let z := (z + 719468)%Z in
  let era := (z / 146097)%Z in
  let doe := (z - era * 146097)%Z in
  let yoe := ((doe - doe / 1460 + doe / 36524 - doe / 146096) / 365)%Z in
  let doy := (doe - (365 * yoe + yoe / 4 - yoe / 100))%Z in
  let mp := ((5 * doy + 2) / 153)%Z in
  let d := (doy - (153 * mp + 2) / 5 + 1)%Z in
  let m := (if (mp <? 10)%Z then mp + 3 else mp - 9)%Z in
  let y := (yoe + era * 400 + (if (m <=? 2)%Z then 1 else 0))%Z in
  (y, m, d).

(** [datetime.fromtimestamp] of a whole number on a 64-bit Linux host whose
    local time is UTC.  A number beyond [time_t] raises OverflowError; a year
    beyond the [int] of [struct tm] raises OSError; a year outside 1..9999, at
    the time itself or one day before it (where the fold is looked for),
    raises ValueError. *)
Definition utc_fromtimestamp (t : Z) : result Datetime.t :=
  let '(y, m, d) := civil_from_days (t / 86400) in
  let '(y', _, _) := civil_from_days ((t - 86400) / 86400) in
  let s := (t mod 86400)%Z in
  if negb ((- 2 ^ 63 <=? t) && (t <? 2 ^ 63))%Z then Raise OverflowError
  else if negb ((- 2 ^ 31 <=? y - 1900) && (y - 1900 <? 2 ^ 31))%Z then Raise OSError
  else if negb ((1 <=? y') && (1 <=? y) && (y <=? 9999))%Z then Raise ValueError
  else Ok (Datetime.mk (Z.to_N y) (Z.to_N m) (Z.to_N d)
             (Z.to_N (s / 3600)) (Z.to_N (s / 60 mod 60)) (Z.to_N (s mod 60)) 0).

(** A [strptime] that reads the formats without a fraction, when every field
    is written with all its digits. *)
Definition strict_strptime (s fmt : string) : option Datetime.t :=
  let shape :=
    if decide (fmt = "%Y-%m-%dT%H:%M:%S") then Some (19, Some "T"%char)
    else if decide (fmt = "%Y-%m-%d %H:%M:%S") then Some (19, Some " "%char)
    else if decide (fmt = "%Y-%m-%d") then Some (10, None)
    else None in
  match shape with
  | Some (len, sep) =>
      if (String.length s =? len)
         && match sep with
            | Some c => bool_decide (String.get 10 s = Some c)
            | None => true
            end
      then match Datetime.fromisoformat s with
           | Ok d => Some d
           | Raise _ => None
           end
      else None
  | None => None
  end.

(** A host without the [dateutil] package. *)
Definition env : Env :=
  mkEnv (Datetime.mk 2024 1 15 9 30 0 0) utc_fromtimestamp strict_strptime None.

(** The raw record of the concrete scenario. *)
Definition untitled_task_fields : list (string * Py.value) :=
  [("name", Py.VStr "Untitled task"); ("state", Py.VStr "active");
   ("urgency", Py.VStr "urgent")].

Definition untitled_task : Py.value := Py.VDict untitled_task_fields.

(** A raw record whose status is a number. *)
Definition numeric_status : Py.value :=
  Py.VDict [("id", Py.VStr "wo_9"); ("status", Py.VInt 3)].

End Host.

(** ** The [list] command of [work_order_cli.py] *)

Module CLI.

(** The arguments of [list] as [argparse] delivers them: [None] for an option
    that was not given. *)
Record Args : Type := mkArgs {
  status : option string;
  priority : option string;
  assigned : option string;
  tag : option string;
  limit : option Z }.

(** What the command does: it prints the rows, or the notice that nothing was
    found, or it names the invalid value and leaves with exit status 1. *)
Inductive outcome : Type :=
  | Listed (rows : list WorkOrder.t)
  | NoneFound
  | ExitInvalidStatus (value : string)
  | ExitInvalidPriority (value : string).

(** [if args.option:] holds for a string that is not empty. *)
Definition given (o : option string) : option string :=
  match o with
  | Some s => if decide (s = "") then None else Some s
  | None => None
  end.

(** The fields of a [datetime] in the order in which they are compared. *)
Definition created_key (wo : WorkOrder.t) : N * (N * (N * (N * (N * (N * N))))) :=
  let d := WorkOrder.created_at wo in
  (Datetime.year d, (Datetime.month d, (Datetime.day d, (Datetime.hour d,
    (Datetime.minute d, (Datetime.second d, Datetime.microsecond d)))))).

(** [a.created_at < b.created_at] *)
Definition older (a b : WorkOrder.t) : bool :=
  match trichotomyT lexico (created_key a) (created_key b) with
  | inleft (left _) => true
  | _ => false
  end.

(** [rows.sort(key=lambda x: x.created_at, reverse=True)]: the sort is stable,
    so a row goes in front of the first row that is not newer than it. *)
Fixpoint insert_newest (x : WorkOrder.t) (rows : list WorkOrder.t) : list WorkOrder.t :=
  match rows with
  | [] => [x]
  | y :: rows' => if older x y then y :: insert_newest x rows' else x :: rows
  end.

Definition sort_newest_first (rows : list WorkOrder.t) : list WorkOrder.t :=
  foldr insert_newest [] rows.

(** [rows[:n]]: a negative [n] counts from the end. *)
Definition slice_to (n : Z) (rows : list WorkOrder.t) : list WorkOrder.t :=
  if (0 <=? n)%Z then take (Z.to_nat n) rows
  else take (length rows - Z.to_nat (- n)) rows.

(** The branch of the [if]/[elif] chain: the rows to list, or the exit. *)
Definition select (index : WorkOrderIndex.t) (args : Args) : outcome + list WorkOrder.t :=
  match given (status args) with
  | Some s =>
      match status_of_value s with
      | Ok st => inr (WorkOrderIndex.get_work_orders_by_status index st)
      | Raise _ => inl (ExitInvalidStatus s)
      end
  | None =>
      match given (priority args) with
      | Some p =>
          match priority_of_value p with
          | Ok pr => inr (WorkOrderIndex.get_work_orders_by_priority index pr)
          | Raise _ => inl (ExitInvalidPriority p)
          end
      | None =>
          match given (assigned args) with
          | Some a => inr (WorkOrderIndex.get_work_orders_by_assigned index a)
          | None =>
              match given (tag args) with
              | Some t => inr (WorkOrderIndex.get_work_orders_by_tag index t)
              | None => inr (Dict.values (WorkOrderIndex.work_orders index))
              end
          end
      end
  end.

Definition list_command (index : WorkOrderIndex.t) (args : Args) : outcome :=
  match select index args with
  | inl exit => exit
  | inr [] => NoneFound
  | inr work_orders =>
      let work_orders := sort_newest_first work_orders in
      match limit args with
      | Some n => if decide (n = 0%Z) then Listed work_orders else Listed (slice_to n work_orders)
      | None => Listed work_orders
      end
  end.

(** The description as a row shows it. *)
Definition short_description (description : string) : string :=
  if 100 <? String.length description
  then Text.prefix 100 description +:+ "..."
  else description.

(** [a] is not older than [b]. *)
Definition not_older (a b : WorkOrder.t) : Prop := older a b = false.

End CLI.

(** ** Further names for the raw values the normalizer reads *)

(** The values behind the tags and the assignee, and the identifier that the
    content of a record gives. *)
Definition raw_tags (d : list (string * Py.value)) : Py.value :=
  Py.get d "tags" (Py.get d "labels" (Py.get d "categories" (Py.VList []))).

Definition raw_assigned (d : list (string * Py.value)) : Py.value :=
  Py.get d "assigned_to" (Py.get d "assignee" (Py.get d "owner" Py.VNone)).

Definition content_id (d : list (string * Py.value)) : string :=
  Text.prefix 12 (MD5.hexdigest (Py.repr (Py.VDict d))).

(** The number of [LogError] entries of a log. *)
Definition count_errors (log : list log_entry) : nat :=
  length (List.filter (fun e => match e with LogError _ _ _ => true | _ => false end) log).

(** ** Names for the statement about search *)

(** The word [w] occurs in some record of [l]. *)
Definition occurs (l : list WorkOrder.t) (w : string) : bool :=
  bool_decide (Exists (λ wo, w ∈ WorkOrder.words wo) l).

(** Some record of [l] with the identifier [j] has the word [w]. *)
Definition added_with (l : list WorkOrder.t) (j w : string) : bool :=
  bool_decide (Exists (λ wo, WorkOrder.id wo = j ∧ w ∈ WorkOrder.words wo) l).

(** Some identifier was added with every word of [ws]. *)
Definition shared (l : list WorkOrder.t) (ws : list string) : bool :=
  bool_decide (Exists (λ wo, Forall (λ w, added_with l (WorkOrder.id wo) w = true) ws) l).

(** The tokens of a query that decide its result, [read] being those read so
    far.  A token that occurs in no record is passed over.  A token that
    occurs is added to the tokens read so far when some identifier was added
    with all of them; when none was, nothing is kept, and the next token that
    occurs starts afresh. *)
Fixpoint deciding_tokens (l : list WorkOrder.t) (read tokens : list string) : list string :=
  match tokens with
  | [] => read
  | w :: rest =>
      if negb (occurs l w) then deciding_tokens l read rest
      else if shared l (read ++ [w]) then deciding_tokens l (read ++ [w]) rest
      else deciding_tokens l [] rest
  end.

(** ** Names for the statements about the due date *)

(** None of the keys for the due date is in the raw record. *)
Definition no_due_key (d : list (string * Py.value)) : Prop :=
  Dict.lookup d "due_date" = None ∧ Dict.lookup d "deadline" = None
  ∧ Dict.lookup d "due" = None.

(** The other fields of the raw record are read without an exception: the
    status and the priority are strings, the two time stamps are read. *)
Definition reads_other_fields (env : Env) (d : list (string * Py.value)) : Prop :=
  (∃ s, WorkOrderDiscovery.raw_status d = Py.VStr s)
  ∧ (∃ p, WorkOrderDiscovery.raw_priority d = Py.VStr p)
  ∧ (∃ c, WorkOrderDiscovery._parse_timestamp env (WorkOrderDiscovery.raw_created d) = Ok c)
  ∧ (∃ u, WorkOrderDiscovery._parse_timestamp env (WorkOrderDiscovery.raw_updated d) = Ok u).

(** No attempt reads the value and none raises: the text is in none of the
    formats and [dateutil] is not installed, or the value is a list or a
    mapping. *)
Definition passes_every_parse (env : Env) (v : Py.value) : Prop :=
  match v with
  | Py.VStr s => WorkOrderDiscovery.first_format env s WorkOrderDiscovery.formats = None
                 ∧ dateutil_parse env = None
  | Py.VList _ | Py.VDict _ => True
  | _ => False
  end.

(** An attempt to read the value raises [e]: [fromtimestamp] on the number,
    or [dateutil] on a text that is in none of the formats. *)
Definition parse_attempt_raises (env : Env) (v : Py.value) (e : exn) : Prop :=
  match v with
  | Py.VInt z => z ≠ 0%Z ∧ fromtimestamp env z = Raise e
  | Py.VBool b => b = true ∧ fromtimestamp env 1%Z = Raise e
  | Py.VStr s =>
      s ≠ EmptyString
      ∧ WorkOrderDiscovery.first_format env s WorkOrderDiscovery.formats = None
      ∧ ∃ parse, dateutil_parse env = Some parse ∧ parse s = Raise e
  | _ => False
  end.

(** A raw record without a due date, or with a due value that no attempt
    reads, becomes a work order that is due at the reading of the clock. *)
Definition unread_due_date_becomes_now (env : Env) (d : list (string * Py.value))
    (url : string) : Prop :=
  no_due_key d
  ∨ passes_every_parse env (WorkOrderDiscovery.raw_due d)
  ∨ (∃ e, parse_attempt_raises env (WorkOrderDiscovery.raw_due d) e) →
  ∃ wo log,
    WorkOrderDiscovery._create_work_order_from_data env (Py.VDict d) url = (Some wo, log)
    ∧ Discovered.due_date wo = Some (now env).

Module Raw.

(** The raw record of the scenario with another state and urgency. *)
Definition task (state urgency : string) : Py.value :=
  Py.VDict [("name", Py.VStr "Untitled task"); ("state", Py.VStr state);
            ("urgency", Py.VStr urgency)].

(** The raw record of the scenario with a due value. *)
Definition task_due (due : Py.value) : list (string * Py.value) :=
  Host.untitled_task_fields ++ [("due", due)].

(** 2024-01-15 09:30:00 UTC in milliseconds, as [Date.now()] counts: read as
    seconds it lies in the year 56009, which [fromtimestamp] does not take. *)
Definition millis : Py.value := Py.VInt 1705311000000.

End Raw.

(** * Properties *)

(** ** Ordered dictionaries *)

Section dict_facts.
Context {V : Type}.
Implicit Types (d : list (string * V)) (k : string) (v : V).

Lemma dict_lookup_set_eq d k v : Dict.lookup (Dict.set d k v) k = Some v.
Proof.
  induction d as [|[k' v'] d IH]; simpl.
  - by rewrite decide_True.
  - destruct (decide (k' = k)) as [->|Hne]; simpl.
    + by rewrite decide_True.
    + by rewrite decide_False.
Qed.

Lemma dict_lookup_set_ne d k k' v :
  k ≠ k' → Dict.lookup (Dict.set d k v) k' = Dict.lookup d k'.
Proof.
  intros Hne. induction d as [|[k0 v0] d IH]; simpl.
  - by rewrite decide_False.
  - destruct (decide (k0 = k)) as [->|Hk]; simpl.
    + by rewrite !decide_False.
    + by rewrite IH.
Qed.

Lemma dict_lookup_is_Some d k : is_Some (Dict.lookup d k) ↔ k ∈ Dict.keys d.
Proof.
  unfold Dict.keys. induction d as [|[k' v'] d IH]; simpl.
  - split; [by intros [? ?] | by intros ?%elem_of_nil].
  - rewrite elem_of_cons. destruct (decide (k' = k)) as [->|Hne].
    + split; eauto.
    + rewrite IH. split; [by auto | by intros [?|?]; [congruence|]].
Qed.

Lemma dict_lookup_None d k : Dict.lookup d k = None ↔ k ∉ Dict.keys d.
Proof. by rewrite <-dict_lookup_is_Some, eq_None_not_Some. Qed.

Lemma dict_set_present d k v :
  k ∈ Dict.keys d → length (Dict.set d k v) = length d.
Proof.
  unfold Dict.keys. induction d as [|[k' v'] d IH]; simpl.
  - by intros ?%elem_of_nil.
  - intros Hin. destruct (decide (k' = k)) as [->|Hne]; simpl; [done|].
    f_equal. apply IH. apply elem_of_cons in Hin as [?|?]; [congruence | done].
Qed.

Lemma dict_set_absent d k v : k ∉ Dict.keys d → Dict.set d k v = d ++ [(k, v)].
Proof.
  unfold Dict.keys. induction d as [|[k' v'] d IH]; simpl; [done|].
  intros Hin. apply not_elem_of_cons in Hin as [Hne Hin].
  rewrite decide_False by done. by rewrite IH.
Qed.

Lemma dict_keys_set d k v :
  Dict.keys (Dict.set d k v) = if decide (k ∈ Dict.keys d) then Dict.keys d else Dict.keys d ++ [k].
Proof.
  destruct (decide (k ∈ Dict.keys d)) as [Hin|Hin].
  - unfold Dict.keys in *. induction d as [|[k' v'] d IH]; simpl in *.
    + by apply elem_of_nil in Hin.
    + destruct (decide (k' = k)) as [->|Hne]; simpl; [done|].
      f_equal. apply IH. apply elem_of_cons in Hin as [?|?]; [congruence | done].
  - rewrite dict_set_absent by done. unfold Dict.keys. by rewrite fmap_app.
Qed.

Lemma dict_keys_set_mono d k k' v : k' ∈ Dict.keys d → k' ∈ Dict.keys (Dict.set d k v).
Proof.
  rewrite dict_keys_set. case_decide; [done|]. rewrite elem_of_app. by left.
Qed.

Lemma dict_key_set d k v : k ∈ Dict.keys (Dict.set d k v).
Proof. apply dict_lookup_is_Some. rewrite dict_lookup_set_eq. eauto. Qed.

End dict_facts.

(** ** ISO-8601 text of a date-time *)

Section iso_facts.
Local Open Scope N_scope.

Lemma digit_value_char (m : N) : m < 10 → Datetime.digit_value (Datetime.digit_char m) = Some m.
Proof.
  intros Hm.
  assert (Hcases : m = 0 ∨ m = 1 ∨ m = 2 ∨ m = 3 ∨ m = 4 ∨ m = 5 ∨ m = 6 ∨ m = 7
                   ∨ m = 8 ∨ m = 9) by lia.
  destruct_or!; subst m; reflexivity.
Qed.

Lemma take_num_pad_to (k j : nat) (acc n : N) (rest : string) :
  Datetime.take_num (k + j) acc (Datetime.pad_to k n rest)
  = Datetime.take_num j (acc * 10 ^ N.of_nat k + n mod 10 ^ N.of_nat k) rest.
Proof.
  revert j n rest. induction k as [|k IH]; intros j n rest.
  - simpl. f_equal. rewrite N.mod_1_r. lia.
  - cbn [Datetime.pad_to]. replace (S k + j)%nat with (k + S j)%nat by lia.
    rewrite IH. cbn [Datetime.take_num].
    rewrite digit_value_char by (apply N.mod_lt; lia). cbn.
    f_equal. rewrite Nat2N.inj_succ, N.pow_succ_r'.
    rewrite (N.Div0.mod_mul_r n 10 (10 ^ N.of_nat k)). lia.
Qed.

Lemma take_num_pad (k : nat) (n : N) (rest : string) :
  n < 10 ^ N.of_nat k →
  Datetime.take_num k 0 (Datetime.pad_to k n rest) = Some (n, rest).
Proof.
  intros Hn. replace k with (k + 0)%nat at 1 by lia.
  rewrite take_num_pad_to. simpl. by rewrite N.mod_small.
Qed.

Lemma pad_to_nonempty (k : nat) (n : N) (rest : string) :
  Datetime.pad_to (S k) n rest ≠ EmptyString.
Proof.
  revert n rest. induction k as [|k IH]; intros n rest; [done|].
  change (Datetime.pad_to (S k) (n / 10) (String (Datetime.digit_char (n mod 10)) rest)
          ≠ EmptyString).
  apply IH.
Qed.

Lemma isoformat_nonempty (d : Datetime.t) : Datetime.isoformat d ≠ EmptyString.
Proof. apply pad_to_nonempty. Qed.

(** Step over a separator that was just exposed by [take_num_pad]. *)
Ltac read_sep :=
  cbn [mbind option_bind Datetime.expect];
  rewrite ?decide_False by done;
  cbn [mbind option_bind Datetime.expect];
  rewrite ?decide_True by done;
  cbn [mbind option_bind].

Lemma parse_iso_isoformat (d : Datetime.t) :
  Datetime.valid d = true → Datetime.parse_iso (Datetime.isoformat d) = Some d.
Proof.
  destruct d as [y m dd h mi sec us]. unfold Datetime.valid.
  cbn [Datetime.year Datetime.month Datetime.day Datetime.hour Datetime.minute
       Datetime.second Datetime.microsecond].
  rewrite !andb_true_iff, !N.leb_le, !N.ltb_lt. intros Hv.
  assert (dd ≤ 31).
  { destruct Hv as [[[[[_ Hd] _] _] _] _]. revert Hd. unfold Datetime.days_in_month.
    repeat case_match; lia. }
  unfold Datetime.parse_iso, Datetime.isoformat.
  cbn [Datetime.year Datetime.month Datetime.day Datetime.hour Datetime.minute
       Datetime.second Datetime.microsecond].
  do 3 (rewrite take_num_pad by (simpl; lia); read_sep).
  unfold Datetime.parse_time.
  do 3 (rewrite take_num_pad by (simpl; lia); read_sep).
  destruct (N.eqb_spec us 0) as [->|Hus].
  - by rewrite decide_True.
  - rewrite decide_False by done. read_sep.
    unfold Datetime.parse_fraction. by rewrite take_num_pad by (simpl; lia).
Qed.

Lemma fromisoformat_isoformat (d : Datetime.t) :
  Datetime.valid d = true → Datetime.fromisoformat (Datetime.isoformat d) = Ok d.
Proof.
  intros Hv. unfold Datetime.fromisoformat. by rewrite parse_iso_isoformat, Hv.
Qed.

End iso_facts.

(** ** Serialized work orders *)

Lemma status_of_value_value (s : WorkOrderStatus) : status_of_value (status_value s) = Ok s.
Proof. by destruct s. Qed.

Lemma priority_of_value_value (p : WorkOrderPriority) :
  priority_of_value (priority_value p) = Ok p.
Proof. by destruct p. Qed.

Lemma from_dict_to_dict (wo : WorkOrder.t) :
  valid_stamps wo → WorkOrder.from_dict (WorkOrder.to_dict wo) = Ok wo.
Proof.
  destruct wo as [i t d s p c u a due tg md src]. intros (Hc & Hu & Hd).
  unfold WorkOrder.from_dict, WorkOrder.to_dict.
  cbn -[Datetime.isoformat Datetime.fromisoformat status_of_value priority_of_value] in *.
  rewrite status_of_value_value, priority_of_value_value.
  cbn -[Datetime.isoformat Datetime.fromisoformat].
  rewrite !fromisoformat_isoformat by done.
  cbn -[Datetime.isoformat Datetime.fromisoformat].
  destruct due as [dd|]; cbn -[Datetime.isoformat Datetime.fromisoformat]; [|done].
  rewrite decide_False by apply isoformat_nonempty.
  by rewrite fromisoformat_isoformat.
Qed.

(** ** The index after a sequence of [add_work_order] calls *)

Section index_facts.
Import WorkOrderIndex.
Implicit Types (idx : WorkOrderIndex.t) (wo : WorkOrder.t) (l : list WorkOrder.t).
Implicit Types (i a w : string) (m : gmap string (list string)).

Lemma add_all_snoc idx l wo : add_all idx (l ++ [wo]) = add_work_order (add_all idx l) wo.
Proof. unfold add_all. by rewrite fold_left_app. Qed.

Lemma add_all_app idx l1 l2 : add_all idx (l1 ++ l2) = add_all (add_all idx l1) l2.
Proof. unfold add_all. by rewrite fold_left_app. Qed.

(** The last record of [l] that carries the identifier [i]. *)
Lemma get_add_all idx l i :
  get_work_order (add_all idx l) i
  = match last (filter (λ wo, WorkOrder.id wo = i) l) with
    | Some wo => Some wo
    | None => get_work_order idx i
    end.
Proof.
  induction l as [|wo l IH] using rev_ind; [done|].
  rewrite add_all_snoc, filter_app. unfold get_work_order in *. simpl.
  destruct (decide (WorkOrder.id wo = i)) as [<-|Hne].
  - rewrite dict_lookup_set_eq, filter_cons_True, filter_nil by done. by rewrite last_snoc.
  - rewrite dict_lookup_set_ne, filter_cons_False by done.
    by rewrite filter_nil, app_nil_r.
Qed.

Lemma keys_add_all_mono idx l i :
  i ∈ Dict.keys (work_orders idx) → i ∈ Dict.keys (work_orders (add_all idx l)).
Proof.
  intros Hi. induction l as [|wo l IH] using rev_ind; [done|].
  rewrite add_all_snoc. simpl. by apply dict_keys_set_mono.
Qed.

Lemma keys_add_all idx l wo :
  wo ∈ l → WorkOrder.id wo ∈ Dict.keys (work_orders (add_all idx l)).
Proof.
  induction l as [|wo' l IH] using rev_ind; [by intros ?%elem_of_nil|].
  rewrite add_all_snoc, elem_of_app, list_elem_of_singleton. simpl.
  intros [Hin| ->]; [|apply dict_key_set]. by apply dict_keys_set_mono, IH.
Qed.

(** Adding records whose identifiers are all stored already keeps the size. *)
Lemma length_add_all_present idx l :
  (∀ wo, wo ∈ l → WorkOrder.id wo ∈ Dict.keys (work_orders idx)) →
  length (work_orders (add_all idx l)) = length (work_orders idx).
Proof.
  induction l as [|wo l IH] using rev_ind; [done|]. intros Hl.
  rewrite add_all_snoc. simpl. rewrite dict_set_present.
  - apply IH. intros wo' Hwo'. apply Hl, elem_of_app. by left.
  - apply keys_add_all_mono, Hl, elem_of_app. right. by apply list_elem_of_singleton.
Qed.

(** With pairwise distinct identifiers the store lists the records as added. *)
Lemma work_orders_add_all_fresh l :
  NoDup (WorkOrder.id <$> l) →
  work_orders (add_all init l) = (λ wo, (WorkOrder.id wo, wo)) <$> l.
Proof.
  induction l as [|wo l IH] using rev_ind; [done|].
  rewrite fmap_app, NoDup_app. intros (Hl & Hfresh & _).
  rewrite add_all_snoc, fmap_app. simpl. rewrite IH by done.
  apply dict_set_absent. unfold Dict.keys. rewrite <-list_fmap_compose.
  intros Hin. apply (Hfresh _ Hin). simpl. by apply list_elem_of_singleton.
Qed.

Lemma status_add_all idx l (s : WorkOrderStatus) :
  index_by_status (add_all idx l) s
  = index_by_status idx s ++ (WorkOrder.id <$> filter (λ wo, WorkOrder.status wo = s) l).
Proof.
  induction l as [|wo l IH] using rev_ind; [by rewrite app_nil_r|].
  rewrite add_all_snoc, filter_app, fmap_app, app_assoc, <-IH. simpl.
  unfold append_at. destruct (decide (s = WorkOrder.status wo)) as [->|Hne].
  - by rewrite filter_cons_True.
  - rewrite filter_cons_False by done. by rewrite app_nil_r.
Qed.

Lemma priority_add_all idx l (p : WorkOrderPriority) :
  index_by_priority (add_all idx l) p
  = index_by_priority idx p ++ (WorkOrder.id <$> filter (λ wo, WorkOrder.priority wo = p) l).
Proof.
  induction l as [|wo l IH] using rev_ind; [by rewrite app_nil_r|].
  rewrite add_all_snoc, filter_app, fmap_app, app_assoc, <-IH. simpl.
  unfold append_at. destruct (decide (p = WorkOrder.priority wo)) as [->|Hne].
  - by rewrite filter_cons_True.
  - rewrite filter_cons_False by done. by rewrite app_nil_r.
Qed.

End index_facts.

(** ** Assignee, tag and token index *)

Section bucket_facts.
Import WorkOrderIndex.
Implicit Types (idx : WorkOrderIndex.t) (wo : WorkOrder.t) (l : list WorkOrder.t).
Implicit Types (i j a t w : string) (m : gmap string (list string)).

Lemma lookup_append_to m k x t :
  default [] (append_to m k x !! t)
  = default [] (m !! t) ++ (if decide (k = t) then [x] else []).
Proof.
  unfold append_to. destruct (decide (k = t)) as [->|Hne].
  - by rewrite lookup_insert_eq.
  - by rewrite lookup_insert_ne, app_nil_r.
Qed.

Lemma assigned_add_all idx l a :
  default [] (index_by_assigned (add_all idx l) !! a)
  = default [] (index_by_assigned idx !! a)
    ++ (WorkOrder.id <$> filter (λ wo, assignee wo = Some a) l).
Proof.
  induction l as [|wo l IH] using rev_ind; [by rewrite app_nil_r|].
  rewrite add_all_snoc, filter_app, fmap_app, app_assoc, <-IH. simpl.
  destruct (assignee wo) as [a'|] eqn:Ha.
  - rewrite lookup_append_to. f_equal.
    destruct (decide (a' = a)) as [->|Hne].
    + by rewrite filter_cons_True.
    + rewrite filter_cons_False; [done | congruence].
  - rewrite filter_cons_False; [by rewrite app_nil_r | congruence].
Qed.

Lemma lookup_tag_loop tags i m t :
  default [] (fold_left (λ m tag, append_to m tag i) tags m !! t)
  = default [] (m !! t) ++ ((λ _, i) <$> filter (λ tag, tag = t) tags).
Proof.
  revert m. induction tags as [|tag tags IH]; intros m; simpl.
  - by rewrite app_nil_r.
  - rewrite IH, lookup_append_to, <-app_assoc. f_equal.
    destruct (decide (tag = t)) as [->|Hne].
    + by rewrite filter_cons_True.
    + by rewrite filter_cons_False.
Qed.

Lemma tags_add_all idx l t :
  default [] (index_by_tags (add_all idx l) !! t)
  = default [] (index_by_tags idx !! t)
    ++ (l ≫= λ wo, (λ _, WorkOrder.id wo) <$> filter (λ tag, tag = t) (WorkOrder.tags wo)).
Proof.
  induction l as [|wo l IH] using rev_ind; [by rewrite app_nil_r|].
  rewrite add_all_snoc, bind_app, app_assoc, <-IH. simpl.
  by rewrite lookup_tag_loop, app_nil_r.
Qed.

(** One word of one record: the identifier joins the posting list of the
    word unless it is there already. *)
Lemma index_word_eq i m w :
  index_word i m w
  = if decide (i ∈ default [] (m !! w)) then m
    else <[w := default [] (m !! w) ++ [i]]> m.
Proof.
  unfold index_word. destruct (m !! w) as [ids|] eqn:Hw.
  - by rewrite Hw.
  - rewrite lookup_insert_eq. cbn [default].
    destruct (decide (i ∈ [])) as [Hin|_]; [by apply elem_of_nil in Hin|].
    by rewrite insert_insert_eq.
Qed.


Lemma is_Some_index_word i m w w' :
  is_Some (index_word i m w !! w') ↔ is_Some (m !! w') ∨ w' = w.
Proof.
  rewrite index_word_eq. destruct (decide (i ∈ default [] (m !! w))) as [Hin|Hin].
  - split; [by left|]. intros [?| ->]; [done|].
    destruct (m !! w); [by eauto | by apply elem_of_nil in Hin].
  - rewrite lookup_insert_is_Some. destruct (decide (w = w')); naive_solver.
Qed.

Lemma postings_nonempty_index_word i m w :
  postings_nonempty m → postings_nonempty (index_word i m w).
Proof.
  intros Hm w' ids. rewrite index_word_eq.
  destruct (decide (i ∈ default [] (m !! w))); [apply Hm|].
  destruct (decide (w = w')) as [<-|Hne].
  - rewrite lookup_insert_eq. intros [= <-]. by destruct (default [] (m !! w)).
  - rewrite lookup_insert_ne by done. apply Hm.
Qed.


Lemma is_Some_update_search_index m wo w :
  is_Some (_update_search_index m wo !! w)
  ↔ is_Some (m !! w) ∨ w ∈ WorkOrder.words wo.
Proof.
  unfold _update_search_index. generalize (WorkOrder.words wo) as ws.
  intros ws. revert m. induction ws as [|w0 ws IH]; intros m; simpl.
  - split; [by left | intros [?|?%elem_of_nil]; done].
  - rewrite IH, is_Some_index_word, elem_of_cons. naive_solver.
Qed.

Lemma postings_nonempty_update m wo :
  postings_nonempty m → postings_nonempty (_update_search_index m wo).
Proof.
  unfold _update_search_index. generalize (WorkOrder.words wo) as ws.
  intros ws. revert m. induction ws as [|w0 ws IH]; intros m Hm; simpl; [done|].
  by apply IH, postings_nonempty_index_word.
Qed.


Lemma is_Some_search_index l w :
  is_Some (search_index (add_all init l) !! w)
  ↔ ∃ wo, wo ∈ l ∧ w ∈ WorkOrder.words wo.
Proof.
  induction l as [|wo l IH] using rev_ind.
  - simpl. rewrite lookup_empty.
    split; [by intros [? ?] | by intros (? & ?%elem_of_nil & _)].
  - rewrite add_all_snoc. simpl. rewrite is_Some_update_search_index, IH.
    setoid_rewrite elem_of_app. setoid_rewrite list_elem_of_singleton. naive_solver.
Qed.

Lemma postings_nonempty_add_all l : postings_nonempty (search_index (add_all init l)).
Proof.
  induction l as [|wo l IH] using rev_ind.
  - intros w ids. simpl. by rewrite lookup_empty.
  - rewrite add_all_snoc. simpl. by apply postings_nonempty_update.
Qed.

End bucket_facts.

(** ** Records behind a list of identifiers *)

Section record_facts.
Import WorkOrderIndex.
Implicit Types (idx : WorkOrderIndex.t) (wo : WorkOrder.t) (l : list WorkOrder.t).
Implicit Types (i j : string).

Lemma get_add_all_elem idx l i wo :
  last (filter (λ wo, WorkOrder.id wo = i) l) = Some wo → wo ∈ l ∧ WorkOrder.id wo = i.
Proof.
  intros Hlast. apply last_Some in Hlast as [l' Hl'].
  assert (wo ∈ filter (λ wo, WorkOrder.id wo = i) l) as Hin.
  { rewrite Hl'. apply elem_of_app. right. by apply list_elem_of_singleton. }
  by apply list_elem_of_filter in Hin as [? ?].
Qed.

Lemma get_add_all_init l i wo :
  get_work_order (add_all init l) i = Some wo → wo ∈ l ∧ WorkOrder.id wo = i.
Proof.
  rewrite get_add_all. destruct (last _) as [wo'|] eqn:Hlast; [|done].
  intros [= <-]. by eapply (get_add_all_elem init).
Qed.

Lemma get_add_all_fresh l i wo :
  NoDup (WorkOrder.id <$> l) →
  get_work_order (add_all init l) i = Some wo ↔ wo ∈ l ∧ WorkOrder.id wo = i.
Proof.
  intros Hnd. split; [apply get_add_all_init|]. intros [Hin <-].
  unfold get_work_order. rewrite work_orders_add_all_fresh by done.
  induction l as [|wo' l IH]; [by apply elem_of_nil in Hin|].
  apply NoDup_cons in Hnd as [Hfresh Hnd]. simpl.
  apply elem_of_cons in Hin as [->|Hin]; [by rewrite decide_True|].
  rewrite decide_False; [by apply IH|].
  intros Heq. apply Hfresh. rewrite Heq. by apply list_elem_of_fmap_2.
Qed.

Lemma elem_of_records idx (ids : list string) wo :
  wo ∈ records idx ids ↔ ∃ j, j ∈ ids ∧ get_work_order idx j = Some wo.
Proof. unfold records. apply list_elem_of_omap. Qed.

Lemma records_of_stored idx l :
  (∀ wo, wo ∈ l → get_work_order idx (WorkOrder.id wo) = Some wo) →
  records idx (WorkOrder.id <$> l) = l.
Proof.
  unfold records, get_work_order. induction l as [|wo l IH]; intros Hl; [done|].
  simpl. rewrite Hl by (apply elem_of_cons; by left).
  f_equal. apply IH. intros wo' Hwo'. apply Hl, elem_of_cons. by right.
Qed.

Lemma NoDup_keys_add_all l : NoDup (Dict.keys (work_orders (add_all init l))).
Proof.
  induction l as [|wo l IH] using rev_ind; [apply NoDup_nil_2|].
  rewrite add_all_snoc. simpl. rewrite dict_keys_set. case_decide; [done|].
  apply NoDup_app. split_and!; [done| |apply NoDup_singleton].
  intros j Hj ->%list_elem_of_singleton. done.
Qed.

Lemma elem_of_dict_values {V} (d : list (string * V)) (v : V) :
  NoDup (Dict.keys d) →
  v ∈ Dict.values d ↔ ∃ k, Dict.lookup d k = Some v.
Proof.
  unfold Dict.keys, Dict.values. induction d as [|[k' v'] d IH]; simpl.
  - intros _. split; [by intros ?%elem_of_nil | by intros [? ?]].
  - intros [Hfresh Hnd]%NoDup_cons. rewrite elem_of_cons, IH by done. split.
    + intros [->|[k Hk]].
      * exists k'. by rewrite decide_True.
      * exists k. rewrite decide_False; [done|]. intros ->.
        apply Hfresh. change (k ∈ Dict.keys d). apply dict_lookup_is_Some. eauto.
    + intros [k Hk]. destruct (decide (k' = k)); [left; congruence | right; eauto].
Qed.

Lemma NoDup_fmap_filter l (P : WorkOrder.t → Prop) `{∀ wo, Decision (P wo)} :
  NoDup (WorkOrder.id <$> l) → NoDup (WorkOrder.id <$> filter P l).
Proof.
  intros Hnd. eapply sublist_NoDup; [done|]. apply fmap_sublist, sublist_filter.
Qed.

End record_facts.

(** ** Uniqueness of identifiers and the secondary indexes *)

Section uniqueness.
Import WorkOrderIndex.
Implicit Types (idx : WorkOrderIndex.t) (wo : WorkOrder.t) (l : list WorkOrder.t).
Implicit Types (i j a t : string).

Lemma elem_of_ids_filter_stored l (P : WorkOrder.t → Prop) `{∀ wo, Decision (P wo)} i wo :
  get_work_order (add_all init l) i = Some wo → P wo →
  i ∈ WorkOrder.id <$> filter P l.
Proof.
  intros [Hin <-]%get_add_all_init HP.
  by apply list_elem_of_fmap_2, list_elem_of_filter.
Qed.

Lemma elem_of_ids_filter l (P : WorkOrder.t → Prop) `{∀ wo, Decision (P wo)} i :
  NoDup (WorkOrder.id <$> l) →
  i ∈ WorkOrder.id <$> filter P l
  ↔ ∃ wo, get_work_order (add_all init l) i = Some wo ∧ P wo.
Proof.
  intros Hnd. split.
  - intros (wo & -> & [HP Hin]%list_elem_of_filter)%list_elem_of_fmap.
    exists wo. split; [|done]. by apply get_add_all_fresh.
  - intros (wo & Hget & HP). by eapply elem_of_ids_filter_stored.
Qed.

Lemma elem_of_tag_postings l t i :
  i ∈ (l ≫= λ wo, (λ _, WorkOrder.id wo) <$> filter (λ tag, tag = t) (WorkOrder.tags wo))
  ↔ ∃ wo, wo ∈ l ∧ WorkOrder.id wo = i ∧ t ∈ WorkOrder.tags wo.
Proof.
  rewrite list_elem_of_bind. split.
  - intros (wo & (tag & -> & [-> Htag]%list_elem_of_filter)%list_elem_of_fmap & Hin).
    by exists wo.
  - intros (wo & Hin & <- & Ht). exists wo. split; [|done].
    apply list_elem_of_fmap. exists t. split; [done|]. by apply list_elem_of_filter.
Qed.

(** C1 (amended).  After any sequence of [add_work_order] calls on a fresh
    index, [get_work_order i] is the last record added under [i]; that record
    is listed under its status, its priority, its assignee and each of its
    tags.  An [add_work_order] never removes a membership, so the secondary
    indexes hold exactly the memberships of the stored records, each once in
    the status, priority and assignee index, when every identifier was added
    once. *)
Theorem add_keeps_last_record (l : list WorkOrder.t) (i : string) :
  let idx := add_all init l in
  get_work_order idx i = last (filter (λ wo, WorkOrder.id wo = i) l)
  ∧ (∀ wo, get_work_order idx i = Some wo →
       i ∈ index_by_status idx (WorkOrder.status wo)
       ∧ i ∈ index_by_priority idx (WorkOrder.priority wo)
       ∧ (∀ a, assignee wo = Some a → i ∈ default [] (index_by_assigned idx !! a))
       ∧ (∀ t, t ∈ WorkOrder.tags wo → i ∈ default [] (index_by_tags idx !! t)))
  ∧ (NoDup (WorkOrder.id <$> l) →
       (∀ s, NoDup (index_by_status idx s)
             ∧ (i ∈ index_by_status idx s
                ↔ ∃ wo, get_work_order idx i = Some wo ∧ WorkOrder.status wo = s))
       ∧ (∀ p, NoDup (index_by_priority idx p)
               ∧ (i ∈ index_by_priority idx p
                  ↔ ∃ wo, get_work_order idx i = Some wo ∧ WorkOrder.priority wo = p))
       ∧ (∀ a, NoDup (default [] (index_by_assigned idx !! a))
               ∧ (i ∈ default [] (index_by_assigned idx !! a)
                  ↔ ∃ wo, get_work_order idx i = Some wo ∧ assignee wo = Some a))
       ∧ (∀ t, i ∈ default [] (index_by_tags idx !! t)
               ↔ ∃ wo, get_work_order idx i = Some wo ∧ t ∈ WorkOrder.tags wo)).
Proof.
  intros idx. subst idx. split_and!.
  - rewrite get_add_all. by destruct (last _).
  - intros wo Hget. split_and!.
    + rewrite status_add_all. by eapply elem_of_ids_filter_stored.
    + rewrite priority_add_all. by eapply elem_of_ids_filter_stored.
    + intros a Ha. rewrite assigned_add_all. by eapply elem_of_ids_filter_stored.
    + intros t Ht. rewrite tags_add_all. apply elem_of_tag_postings.
      apply get_add_all_init in Hget as [Hin Hid]. by exists wo.
  - intros Hnd. split_and!.
    + intros s. rewrite status_add_all. simpl.
      split; [by apply NoDup_fmap_filter | by apply elem_of_ids_filter].
    + intros p. rewrite priority_add_all. simpl.
      split; [by apply NoDup_fmap_filter | by apply elem_of_ids_filter].
    + intros a. rewrite assigned_add_all. simpl. rewrite lookup_empty. simpl.
      split; [by apply NoDup_fmap_filter | by apply elem_of_ids_filter].
    + intros t. rewrite tags_add_all. simpl. rewrite lookup_empty. simpl.
      rewrite elem_of_tag_postings. split.
      * intros (wo & Hin & Hid & Ht). exists wo. split; [|done].
        by apply get_add_all_fresh.
      * intros (wo & [Hin Hid]%get_add_all_init & Ht). by exists wo.
Qed.

(** C1, as stated, fails: after [wo_1] is added as queued and then again as
    completed, the identifier is still listed under QUEUED. *)
Lemma readd_leaves_stale_status : ¬ status_index_reflects_store Example.readded.
Proof.
  intros Hclaim.
  destruct (Hclaim "wo_1" QUEUED) as (wo & Hget & Hstatus).
  - vm_compute. apply list_elem_of_singleton. reflexivity.
  - vm_compute in Hget. injection Hget as <-. discriminate Hstatus.
Qed.

End uniqueness.

(** ** Filter completeness *)

Section filter_completeness.
Import WorkOrderIndex.
Implicit Types (idx : WorkOrderIndex.t) (wo : WorkOrder.t) (l : list WorkOrder.t).




End filter_completeness.

(** ** Export and import *)

Section serialization.
Import WorkOrderIndex.
Implicit Types (idx : WorkOrderIndex.t) (wo : WorkOrder.t) (l wos : list WorkOrder.t).
Implicit Types (d : WorkOrderDict.t) (ds : list WorkOrderDict.t).

Lemma import_records_ok idx ds wos :
  Forall2 (λ d wo, WorkOrder.from_dict d = Ok wo) ds wos →
  import_records idx ds = (add_all idx wos, Ok ()).
Proof.
  intros Hall. revert idx. induction Hall as [|d wo ds wos Hd _ IH]; intros idx; [done|].
  simpl. by rewrite Hd, IH.
Qed.

Lemma import_records_raise idx ds wos d e rest :
  Forall2 (λ d wo, WorkOrder.from_dict d = Ok wo) ds wos →
  WorkOrder.from_dict d = Raise e →
  import_records idx (ds ++ d :: rest) = (add_all idx wos, Raise e).
Proof.
  intros Hall Hbad. revert idx.
  induction Hall as [|d' wo ds wos Hd _ IH]; intros idx; simpl.
  - by rewrite Hbad.
  - by rewrite Hd, IH.
Qed.

(** Whatever the document, the import amounts to adding some records. *)
Lemma import_records_adds ds : ∃ wos, ∀ idx, (import_records idx ds).1 = add_all idx wos.
Proof.
  induction ds as [|d ds [wos IH]]; [by exists []|]. simpl.
  destruct (WorkOrder.from_dict d) as [wo|e].
  - exists (wo :: wos). intros idx. by rewrite IH.
  - by exists [].
Qed.

Lemma status_of_value_raise v e : status_of_value v = Raise e → e = ValueError.
Proof. unfold status_of_value. destruct (List.find _ _); simpl; congruence. Qed.

Lemma priority_of_value_raise v e : priority_of_value v = Raise e → e = ValueError.
Proof. unfold priority_of_value. destruct (List.find _ _); simpl; congruence. Qed.

Lemma fromisoformat_raise s e : Datetime.fromisoformat s = Raise e → e = ValueError.
Proof.
  unfold Datetime.fromisoformat. destruct (Datetime.parse_iso s) as [d|]; [|congruence].
  destruct (Datetime.valid d); congruence.
Qed.

(** [from_dict] raises nothing but [ValueError], and does so on an
    unreadable record. *)
Lemma from_dict_raise d e : WorkOrder.from_dict d = Raise e → e = ValueError.
Proof.
  unfold WorkOrder.from_dict.
  destruct (status_of_value _) as [st|e1] eqn:H1;
    [|intros [= <-]; by eapply status_of_value_raise].
  destruct (priority_of_value _) as [pr|e2] eqn:H2;
    [|intros [= <-]; by eapply priority_of_value_raise].
  destruct (Datetime.fromisoformat (WorkOrderDict.created_at d)) as [c|e3] eqn:H3;
    [|intros [= <-]; by eapply fromisoformat_raise].
  destruct (Datetime.fromisoformat (WorkOrderDict.updated_at d)) as [u|e4] eqn:H4;
    [|intros [= <-]; by eapply fromisoformat_raise].
  cbn -[Datetime.fromisoformat].
  destruct (WorkOrderDict.due_date d) as [s|]; [|done].
  destruct (decide (s = EmptyString)); [done|].
  destruct (Datetime.fromisoformat s) as [dd|e5] eqn:H5; [done|].
  intros [= <-]. by eapply fromisoformat_raise.
Qed.

Lemma from_dict_unparsable d : unparsable d → WorkOrder.from_dict d = Raise ValueError.
Proof.
  intros Hbad. destruct (WorkOrder.from_dict d) as [wo|e] eqn:Hd.
  - exfalso. revert Hd. unfold WorkOrder.from_dict.
    destruct Hbad as [Hs|[Hp|[Hc|[Hu|(s & Hdue & Hne & Hs)]]]].
    + by rewrite Hs.
    + rewrite Hp. by destruct (status_of_value _).
    + rewrite Hc. destruct (status_of_value _); [|done].
      by destruct (priority_of_value _).
    + rewrite Hu. destruct (status_of_value _); [|done].
      destruct (priority_of_value _); [|done].
      by destruct (Datetime.fromisoformat (WorkOrderDict.created_at d)).
    + rewrite Hdue, decide_False, Hs by done.
      destruct (status_of_value _); [|done].
      destruct (priority_of_value _); [|done].
      destruct (Datetime.fromisoformat (WorkOrderDict.created_at d)); [|done].
      by destruct (Datetime.fromisoformat (WorkOrderDict.updated_at d)).
  - f_equal. by eapply from_dict_raise.
Qed.

(** C4 (amended).  [import_from_json] has no handler around [from_dict]: at
    the first unreadable record the call ends with the [ValueError]; the
    records before it have been added, the records after it are not read. *)
Theorem import_stops_at_unparsable idx ds wos bad rest stats exported_at :
  Forall2 (λ d wo, WorkOrder.from_dict d = Ok wo) ds wos →
  unparsable bad →
  import_from_json idx (mkDocument (ds ++ bad :: rest) stats exported_at)
  = (add_all idx wos, Raise ValueError).
Proof.
  intros Hds Hbad. unfold import_from_json. simpl.
  by apply import_records_raise, from_dict_unparsable.
Qed.

Lemma import_stops_at_unparsable_witness :
  import_from_json init
    (mkDocument ([WorkOrder.to_dict Example.wo_2] ++ Example.bad_status
                   :: [WorkOrder.to_dict Example.wo_2])
       (get_statistics init) "2024-01-15T09:30:00")
  = (add_all init [Example.wo_2], Raise ValueError).
Proof.
  apply import_stops_at_unparsable.
  - constructor; [reflexivity | constructor].
  - left. reflexivity.
Defined.

(** C4, as stated, fails: the readable record that follows an unreadable one
    is not imported. *)
Lemma import_drops_records_after_failure :
  ¬ import_keeps_readable Example.doc_bad_then_good.
Proof.
  intros Hclaim.
  destruct (Hclaim (WorkOrder.to_dict Example.wo_2) Example.wo_2) as [wo Hwo].
  - apply elem_of_cons. right. apply elem_of_cons. by left.
  - reflexivity.
  - vm_compute in Hwo. discriminate Hwo.
Qed.

(** C7.  Importing a document a second time into the same index leaves the
    number of stored work orders unchanged. *)
Theorem import_twice_keeps_total idx (doc : Document) :
  let once := (import_from_json idx doc).1 in
  total_work_orders (get_statistics (import_from_json once doc).1)
  = total_work_orders (get_statistics once).
Proof.
  unfold import_from_json. simpl.
  destruct (import_records_adds (doc_work_orders doc)) as [wos Hwos].
  rewrite !Hwos. apply length_add_all_present. intros wo Hwo. by apply keys_add_all.
Qed.

(** C3, as stated, fails: when [wo_1] was added twice the index counts it
    under QUEUED and under COMPLETED; the index rebuilt from its export counts
    it once. *)
Lemma round_trip_changes_statistics :
  ¬ round_trip_keeps_statistics Example.readded Example.stamp.
Proof. unfold round_trip_keeps_statistics. vm_compute. discriminate. Qed.

End serialization.

(** ** Search *)

Section search.
Import WorkOrderIndex.
Implicit Types (idx : WorkOrderIndex.t) (wo : WorkOrder.t) (l : list WorkOrder.t).
Implicit Types (m : gmap string (list string)) (acc : gset string) (ws : list string).




(** The concrete scenario of the two records. *)
Example two_orders_scenario :
  get_work_orders_by_status Example.two_orders QUEUED = [Example.wo_1]
  ∧ search_work_orders Example.two_orders "bug" = [Example.wo_1]
  ∧ search_work_orders Example.two_orders "bug dashboard" = []
  ∧ total_work_orders (get_statistics Example.two_orders) = 2
  ∧ get_work_orders_by_tag Example.two_orders "feature" = [Example.wo_2].
Proof. by vm_compute. Qed.

(** Once the running intersection is empty the next known word starts it
    afresh: no record has [bug] and [dashboard], and the third word is searched
    for on its own. *)
Example search_starts_afresh_when_empty :
  search_work_orders Example.two_orders "bug dashboard feature" = [Example.wo_2].
Proof. by vm_compute. Qed.

End search.

(** ** What a search returns *)

Section search_semantics.
Import WorkOrderIndex.
Implicit Types (idx : WorkOrderIndex.t) (wo : WorkOrder.t) (l : list WorkOrder.t).
Implicit Types (m : gmap string (list string)) (acc : gset string).
Implicit Types (ws read : list string) (j w : string).











(** The deciding tokens of three queries on the two records of the scenario. *)
Example deciding_tokens_of_queries :
  let l := [Example.wo_1; Example.wo_2] in
  deciding_tokens l [] (Text.findall_words (Text.lower "bug zzz")) = ["bug"]
  ∧ deciding_tokens l [] (Text.findall_words (Text.lower "bug dashboard")) = []
  ∧ deciding_tokens l [] (Text.findall_words (Text.lower "bug dashboard feature"))
    = ["feature"]
  ∧ deciding_tokens l [] (Text.findall_words (Text.lower "Login BUG")) = ["login"; "bug"].
Proof. by vm_compute. Qed.

End search_semantics.

(** ** The record normalizer *)

Section normalizer.
Import WorkOrderDiscovery.
Implicit Types (env : Env) (data : Py.value) (d : list (string * Py.value)).
Implicit Types (wo : Discovered.t) (url : string).

Lemma create_Some env data url wo log :
  _create_work_order_from_data env data url = (Some wo, log) → build env data url = Ok wo.
Proof.
  unfold _create_work_order_from_data. destruct (build env data url); by intros [= <- _].
Qed.

Lemma create_Raise env data url e :
  build env data url = Raise e →
  _create_work_order_from_data env data url
  = (None, [LogError "Failed to create work order from data" e data]).
Proof. unfold _create_work_order_from_data. by intros ->. Qed.

(** What a successful run of the [try] block has read and stored. *)
Lemma build_Ok env data url wo :
  build env data url = Ok wo →
  ∃ d s p due,
    data = Py.VDict d
    ∧ raw_status d = Py.VStr s ∧ raw_priority d = Py.VStr p
    ∧ _parse_timestamp env (raw_due d) = Ok due
    ∧ Discovered.id wo
      = (if decide (Py.str (raw_id d) = "")
         then Text.prefix 12 (MD5.hexdigest (Py.str data)) else Py.str (raw_id d))
    ∧ Discovered.title wo
      = Py.get d "title" (Py.get d "name" (Py.get d "subject" (Py.VStr "Untitled Work Order")))
    ∧ Discovered.status wo = map_status (Text.lower s)
    ∧ Discovered.priority wo = map_priority (Text.lower p)
    ∧ Discovered.due_date wo = Some due.
Proof.
  unfold build. destruct data as [| | | |?|d]; try done.
  destruct (raw_status d) as [| | |s| |] eqn:Hs; try done.
  destruct (raw_priority d) as [| | |p| |] eqn:Hp; try done.
  cbn [lower_of mbind result_bind].
  destruct (_parse_timestamp env (raw_created d)) as [c|]; [|done].
  destruct (_parse_timestamp env (raw_updated d)) as [u|]; [|done].
  destruct (_parse_timestamp env (raw_due d)) as [due|] eqn:Hdue; [|done].
  cbn [mbind result_bind]. intros [= <-]. by exists d, s, p, due.
Qed.

Lemma build_not_str_status env d url :
  (∀ s, raw_status d ≠ Py.VStr s) → build env (Py.VDict d) url = Raise AttributeError.
Proof.
  intros Hs. unfold build. destruct (raw_status d) as [| | |s| |]; try done.
  by destruct (Hs s).
Qed.

Lemma normalize_items_app env url (items items' : list Py.value) :
  normalize_items env url (items ++ items')
  = ((normalize_items env url items).1 ++ (normalize_items env url items').1,
     (normalize_items env url items).2 ++ (normalize_items env url items').2).
Proof.
  induction items as [|item items IH]; simpl.
  - by destruct (normalize_items env url items').
  - rewrite IH. destruct (_create_work_order_from_data env item url) as [[wo|] log];
      destruct (normalize_items env url items); simpl; by rewrite <-?app_assoc.
Qed.

(** A record with a string status, a string priority and time stamps that
    are read without an exception is normalized. *)
Lemma build_total env d url s p c u due :
  raw_status d = Py.VStr s → raw_priority d = Py.VStr p →
  _parse_timestamp env (raw_created d) = Ok c →
  _parse_timestamp env (raw_updated d) = Ok u →
  _parse_timestamp env (raw_due d) = Ok due →
  ∃ wo, build env (Py.VDict d) url = Ok wo
        ∧ Discovered.status wo = map_status (Text.lower s)
        ∧ Discovered.priority wo = map_priority (Text.lower p)
        ∧ Discovered.due_date wo = Some due.
Proof.
  intros Hs Hp Hc Hu Hdue. unfold build. rewrite Hs, Hp, Hc, Hu, Hdue.
  cbn [lower_of mbind result_bind]. eauto.
Qed.

Lemma hexdigest_prefix_length (s : string) :
  String.length (Text.prefix 12 (MD5.hexdigest s)) = 12.
Proof.
  unfold MD5.hexdigest. by destruct (MD5.process _ _ _) as [[[a b] c] dd].
Qed.

Lemma raw_id_absent d :
  Dict.lookup d "id" = None → Dict.lookup d "_id" = None →
  Dict.lookup d "work_order_id" = None → raw_id d = Py.VStr "".
Proof. unfold raw_id, Py.get. by intros -> -> ->. Qed.

(** C8.  A record whose extraction raises (a record whose status is not a
    string, for one) yields no work order: the failure is logged with the raw
    record, and the records before and after it are normalized as they are
    without it. *)
Theorem failed_record_is_dropped :
  (∀ env url (before after : list Py.value) bad e,
     build env bad url = Raise e →
     _create_work_order_from_data env bad url
     = (None, [LogError "Failed to create work order from data" e bad])
     ∧ normalize_items env url (before ++ bad :: after)
       = ((normalize_items env url before).1 ++ (normalize_items env url after).1,
          (normalize_items env url before).2
            ++ LogError "Failed to create work order from data" e bad
               :: (normalize_items env url after).2))
  ∧ (∀ env url d, (∀ s, raw_status d ≠ Py.VStr s) →
       build env (Py.VDict d) url = Raise AttributeError).
Proof.
  split; [|intros env url d; apply build_not_str_status].
  intros env url before after bad e Hbad. split; [by apply create_Raise|].
  rewrite normalize_items_app. f_equal; f_equal; simpl;
    rewrite (create_Raise _ _ _ _ Hbad); by destruct (normalize_items env url after).
Qed.

Lemma failed_record_is_dropped_witness :
  normalize_items Host.env "/api/tasks"
    ([Host.untitled_task] ++ Host.numeric_status :: [Host.untitled_task])
  = ((normalize_items Host.env "/api/tasks" [Host.untitled_task]).1
       ++ (normalize_items Host.env "/api/tasks" [Host.untitled_task]).1,
     (normalize_items Host.env "/api/tasks" [Host.untitled_task]).2
       ++ LogError "Failed to create work order from data" AttributeError
            Host.numeric_status
          :: (normalize_items Host.env "/api/tasks" [Host.untitled_task]).2).
Proof.
  apply (proj1 failed_record_is_dropped Host.env "/api/tasks"
           [Host.untitled_task] [Host.untitled_task] Host.numeric_status AttributeError).
  reflexivity.
Defined.

(** C9.  When the raw record has none of the keys [id], [_id] and
    [work_order_id], the identifier is the first twelve hexadecimal digits of
    the MD5 digest of the text of the record: it is not empty, and does not
    depend on the host, the clock or the source reference. *)
Theorem generated_id_is_content_hash env env' url url' d wo wo' log log' :
  Dict.lookup d "id" = None → Dict.lookup d "_id" = None →
  Dict.lookup d "work_order_id" = None →
  _create_work_order_from_data env (Py.VDict d) url = (Some wo, log) →
  _create_work_order_from_data env' (Py.VDict d) url' = (Some wo', log') →
  Discovered.id wo = Text.prefix 12 (MD5.hexdigest (Py.repr (Py.VDict d)))
  ∧ Discovered.id wo' = Discovered.id wo
  ∧ String.length (Discovered.id wo) = 12.
Proof.
  intros H1 H2 H3 Hwo%create_Some Hwo'%create_Some.
  apply build_Ok in Hwo as (d1 & _ & _ & _ & [= <-] & _ & _ & _ & Hid & _).
  apply build_Ok in Hwo' as (d2 & _ & _ & _ & [= <-] & _ & _ & _ & Hid' & _).
  rewrite raw_id_absent in Hid, Hid' by done. simpl in Hid, Hid'.
  rewrite Hid, Hid'. split_and!; [done..|]. apply hexdigest_prefix_length.
Qed.

Lemma generated_id_is_content_hash_witness :
  ∃ wo wo',
    Discovered.id wo = "23a0eaa3ef7e"
    ∧ Discovered.id wo' = Discovered.id wo
    ∧ String.length (Discovered.id wo) = 12.
Proof.
  destruct (_create_work_order_from_data Host.env Host.untitled_task "/api/tasks")
    as [[wo|] log] eqn:Hwo; [|discriminate Hwo].
  destruct (_create_work_order_from_data
              (mkEnv (Datetime.mk 2025 6 1 0 0 0 0) Host.utc_fromtimestamp
                 Host.strict_strptime None)
              Host.untitled_task "/api/v1/tasks")
    as [[wo'|] log'] eqn:Hwo'; [|discriminate Hwo'].
  exists wo, wo'.
  destruct (generated_id_is_content_hash _ _ _ _ Host.untitled_task_fields _ _ _ _
              eq_refl eq_refl eq_refl Hwo Hwo') as (Hid & Hsame & Hlen).
  split_and!; [|done..]. rewrite Hid. vm_compute. reflexivity.
Defined.

End normalizer.

(** ** Status and priority of a normalized record *)

Section normalizer_revised.
Import WorkOrderDiscovery.
Implicit Types (env : Env) (data : Py.value) (d : list (string * Py.value)).
Implicit Types (wo : Discovered.t) (url : string).

(** C6.  The normalizer lower-cases the status and priority strings and maps
    them through its two tables; a string that is no key of a table gives
    QUEUED, respectively MEDIUM.  The tables are spelled out: [pending],
    [active], [done] and [paused] stand for QUEUED, IN_PROGRESS, COMPLETED
    and ON_HOLD.  The status is read under the key [status], else under
    [state], and is [queued] when the record has neither; the priority under
    [priority], else under [urgency], and is [medium] when it has neither.
    Lower-casing turns the letters A to Z into a to z and keeps every other
    character, so upper-case and mixed-case spellings are mapped like the
    lower-case ones.  The raw record of the scenario is normalized to the title
    [Untitled task], the status IN_PROGRESS and the priority URGENT. *)
Theorem normalizer_maps_aliases :
  (∀ env d url s p c u due,
     raw_status d = Py.VStr s → raw_priority d = Py.VStr p →
     _parse_timestamp env (raw_created d) = Ok c →
     _parse_timestamp env (raw_updated d) = Ok u →
     _parse_timestamp env (raw_due d) = Ok due →
     ∃ wo log, _create_work_order_from_data env (Py.VDict d) url = (Some wo, log)
               ∧ Discovered.status wo = map_status (Text.lower s)
               ∧ Discovered.priority wo = map_priority (Text.lower p))
  ∧ (∀ env data url wo log,
       _create_work_order_from_data env data url = (Some wo, log) →
       ∃ d s p, data = Py.VDict d
                ∧ raw_status d = Py.VStr s ∧ raw_priority d = Py.VStr p
                ∧ Discovered.status wo = map_status (Text.lower s)
                ∧ Discovered.priority wo = map_priority (Text.lower p))
  ∧ (map_status "pending" = QUEUED ∧ map_status "active" = IN_PROGRESS
     ∧ map_status "done" = COMPLETED ∧ map_status "paused" = ON_HOLD)
  ∧ (∀ s,
       (map_status s = IN_PROGRESS ↔ s = "in_progress" ∨ s = "active")
       ∧ (map_status s = COMPLETED ↔ s = "completed" ∨ s = "done")
       ∧ (map_status s = FAILED ↔ s = "failed" ∨ s = "error")
       ∧ (map_status s = CANCELLED ↔ s = "cancelled")
       ∧ (map_status s = ON_HOLD ↔ s = "on_hold" ∨ s = "paused")
       ∧ (map_status s = QUEUED
          ↔ s ∉ ["in_progress"; "active"; "completed"; "done"; "failed"; "error";
                 "cancelled"; "on_hold"; "paused"]))
  ∧ (∀ p,
       (map_priority p = LOW ↔ p = "low")
       ∧ (map_priority p = HIGH ↔ p = "high")
       ∧ (map_priority p = URGENT ↔ p = "urgent")
       ∧ (map_priority p = CRITICAL ↔ p = "critical")
       ∧ (map_priority p = MEDIUM ↔ p ∉ ["low"; "high"; "urgent"; "critical"]))
  ∧ (∀ s, s ∉ Dict.keys status_mapping → map_status s = QUEUED)
  ∧ (∀ p, p ∉ Dict.keys priority_mapping → map_priority p = MEDIUM)
  ∧ (∀ d,
       raw_status d
       = match Dict.lookup d "status", Dict.lookup d "state" with
         | Some v, _ => v
         | None, Some v => v
         | None, None => Py.VStr "queued"
         end
       ∧ raw_priority d
         = match Dict.lookup d "priority", Dict.lookup d "urgency" with
           | Some v, _ => v
           | None, Some v => v
           | None, None => Py.VStr "medium"
           end)
  ∧ (Text.lower "ABCDEFGHIJKLMNOPQRSTUVWXYZ" = "abcdefghijklmnopqrstuvwxyz"
     ∧ Text.lower "in_progress on-hold 0123456789" = "in_progress on-hold 0123456789"
     ∧ ∀ c s, Text.lower (String c s)
              = String (if (65 <=? nat_of_ascii c) && (nat_of_ascii c <=? 90)
                        then ascii_of_nat (nat_of_ascii c + 32) else c)
                  (Text.lower s))
  ∧ (∀ env url,
       Forall (λ '(state, urgency, status, priority),
                 ∃ wo log,
                   _create_work_order_from_data env (Raw.task state urgency) url
                   = (Some wo, log)
                   ∧ Discovered.status wo = status
                   ∧ Discovered.priority wo = priority)
         [("PENDING", "LOW", QUEUED, LOW);
          ("Active", "Urgent", IN_PROGRESS, URGENT);
          ("DONE", "CRITICAL", COMPLETED, CRITICAL);
          ("Paused", "High", ON_HOLD, HIGH);
          ("IN_PROGRESS", "MEDIUM", IN_PROGRESS, MEDIUM);
          ("Failed", "low", FAILED, LOW);
          ("CANCELLED", "hIgH", CANCELLED, HIGH);
          ("On_Hold", "URGENT", ON_HOLD, URGENT);
          ("Waiting", "Blocker", QUEUED, MEDIUM)])
  ∧ (∀ env url, ∃ wo wo' log log',
       _create_work_order_from_data env
         (Py.VDict [("state", Py.VStr "active"); ("status", Py.VStr "Done");
                    ("urgency", Py.VStr "urgent"); ("priority", Py.VStr "LOW")]) url
       = (Some wo, log)
       ∧ Discovered.status wo = COMPLETED ∧ Discovered.priority wo = LOW
       ∧ _create_work_order_from_data env (Py.VDict [("id", Py.VStr "wo_7")]) url
         = (Some wo', log')
       ∧ Discovered.status wo' = QUEUED ∧ Discovered.priority wo' = MEDIUM)
  ∧ (∀ env url, ∃ wo log,
       _create_work_order_from_data env Host.untitled_task url = (Some wo, log)
       ∧ Discovered.title wo = Py.VStr "Untitled task"
       ∧ Discovered.status wo = IN_PROGRESS
       ∧ Discovered.priority wo = URGENT).
Proof.
  refine (conj _ (conj _ (conj _ (conj _ (conj _ (conj _ (conj _ (conj _ (conj _
            (conj _ (conj _ _))))))))))).
  - intros env d url s p c u due Hs Hp Hc Hu Hdue.
    destruct (build_total env d url s p c u due) as (wo & Hwo & Hst & Hpr & _); try done.
    unfold _create_work_order_from_data. rewrite Hwo. eauto.
  - intros env data url wo log Hwo%create_Some.
    apply build_Ok in Hwo as (d & s & p & due & -> & Hs & Hp & _ & _ & _ & Hst & Hpr & _).
    by exists d, s, p.
  - done.
  - intros s. unfold map_status, status_mapping. cbn [Dict.lookup].
    rewrite !elem_of_cons, elem_of_nil.
    repeat (case_decide; [subst s; cbn [default]; split_and!; split; naive_solver|]).
    cbn [default]. split_and!; split; naive_solver.
  - intros p. unfold map_priority, priority_mapping. cbn [Dict.lookup].
    rewrite !elem_of_cons, elem_of_nil.
    repeat (case_decide; [subst p; cbn [default]; split_and!; split; naive_solver|]).
    cbn [default]. split_and!; split; naive_solver.
  - intros s Hs%dict_lookup_None. unfold map_status. by rewrite Hs.
  - intros p Hp%dict_lookup_None. unfold map_priority. by rewrite Hp.
  - intros d. unfold raw_status, raw_priority, Py.get.
    split; [by destruct (Dict.lookup d "status"), (Dict.lookup d "state")
           |by destruct (Dict.lookup d "priority"), (Dict.lookup d "urgency")].
  - split_and!; reflexivity.
  - intros env url.
    repeat (apply Forall_cons_2;
            [eexists _, _; split; [vm_compute; reflexivity | done]|]).
    apply Forall_nil_2.
  - intros env url. eexists _, _, _, _.
    split; [vm_compute; reflexivity|]. split; [done|]. split; [done|].
    split; [vm_compute; reflexivity|]. done.
  - intros env url. eexists _, _. split; [vm_compute; reflexivity|]. done.
Qed.

End normalizer_revised.

(** ** The due date of a normalized record *)

Section due_date.
Import WorkOrderDiscovery.
Implicit Types (env : Env) (data : Py.value) (d : list (string * Py.value)).
Implicit Types (wo : Discovered.t) (url : string) (v : Py.value).

Lemma raw_due_absent d : no_due_key d → raw_due d = Py.VNone.
Proof. intros (H1 & H2 & H3). unfold raw_due, Py.get. by rewrite H1, H2, H3. Qed.

(** The three outcomes of reading a value as a time stamp. *)
Lemma parse_timestamp_cases env v :
  (Py.truthy v = false ∧ _parse_timestamp env v = Ok (now env))
  ∨ (Py.truthy v = true ∧ passes_every_parse env v ∧ _parse_timestamp env v = Ok (now env))
  ∨ (Py.truthy v = true ∧ ∃ e, parse_attempt_raises env v e ∧ _parse_timestamp env v = Raise e)
  ∨ (Py.truthy v = true ∧ ∃ due, _parse_timestamp env v = Ok due
       ∧ ((∃ z, (v = Py.VInt z ∨ v = Py.VBool true ∧ z = 1%Z) ∧ fromtimestamp env z = Ok due)
          ∨ (∃ s, v = Py.VStr s ∧ first_format env s formats = Some due)
          ∨ (∃ s parse, v = Py.VStr s ∧ first_format env s formats = None
                        ∧ dateutil_parse env = Some parse ∧ parse s = Ok due))).
Proof.
  unfold _parse_timestamp. destruct (Py.truthy v) eqn:Htruthy; [|by left]. right.
  cbn [negb]. destruct v as [|[|]|z|s|l|o]; try done.
  - destruct (fromtimestamp env 1) as [due|e] eqn:Hts.
    + right. right. split; [done|]. exists due. split; [done|]. left. exists 1%Z. eauto.
    + right. left. split; [done|]. exists e. by split.
  - assert (z ≠ 0%Z) as Hz by (simpl in Htruthy; lia).
    destruct (fromtimestamp env z) as [due|e] eqn:Hts.
    + right. right. split; [done|]. exists due. split; [done|]. left. exists z. eauto.
    + right. left. split; [done|]. exists e. by split.
  - assert (s ≠ EmptyString) as Hs.
    { simpl in Htruthy. intros ->. by rewrite bool_decide_eq_true_2 in Htruthy. }
    destruct (first_format env s formats) as [due|] eqn:Hfmt.
    + right. right. split; [done|]. exists due. split; [done|]. right. left. by exists s.
    + destruct (dateutil_parse env) as [parse|] eqn:Hpkg.
      * destruct (parse s) as [due|e] eqn:Hparse.
        -- right. right. split; [done|]. exists due. split; [done|].
           right. right. by exists s, parse.
        -- right. left. split; [done|]. exists e. split; [|done].
           cbn [parse_attempt_raises]. split_and!; [done..|]. by exists parse.
      * left. split; [done|]. split; [|done]. by cbn [passes_every_parse].
  - by left.
  - by left.
Qed.

Lemma parse_attempt_raises_spec env v e :
  parse_attempt_raises env v e → _parse_timestamp env v = Raise e.
Proof.
  unfold _parse_timestamp.
  destruct v as [|[|]|z|s|l|o]; cbn [parse_attempt_raises Py.truthy negb]; try done.
  - by intros [_ ?].
  - by intros [[=] _].
  - intros [Hz Hts]. by rewrite (proj2 (Z.eqb_neq z 0) Hz).
  - intros (Hs & Hfmt & parse & Hpkg & Hparse).
    rewrite bool_decide_eq_false_2 by done. cbn [negb]. by rewrite Hfmt, Hpkg.
Qed.

Lemma passes_every_parse_spec env v :
  passes_every_parse env v → _parse_timestamp env v = Ok (now env).
Proof.
  unfold _parse_timestamp. destruct (negb (Py.truthy v)); [done|].
  destruct v as [|[|]|z|s|l|o]; cbn [passes_every_parse]; try done.
  intros [Hfmt Hpkg]. by rewrite Hfmt, Hpkg.
Qed.

Lemma build_raise_due env d url e :
  _parse_timestamp env (raw_due d) = Raise e →
  ∃ e', build env (Py.VDict d) url = Raise e'
        ∧ (reads_other_fields env d → e' = e).
Proof.
  intros Hdue. unfold build.
  destruct (raw_status d) as [| | |s| |] eqn:Hs;
    try (exists AttributeError; split; [done|]; intros ([? ?] & _); congruence).
  destruct (raw_priority d) as [| | |p| |] eqn:Hp;
    try (exists AttributeError; split; [done|]; intros (_ & [? ?] & _); congruence).
  cbn [lower_of mbind result_bind].
  destruct (_parse_timestamp env (raw_created d)) as [c|ec] eqn:Hc;
    [|exists ec; split; [done|]; intros (_ & _ & [? ?] & _); congruence].
  destruct (_parse_timestamp env (raw_updated d)) as [u|eu] eqn:Hu;
    [|exists eu; split; [done|]; intros (_ & _ & _ & [? ?]); congruence].
  rewrite Hdue. cbn [mbind result_bind]. by exists e.
Qed.

(** C10 (amended).  A work order built by the normalizer always has a due
    date: the reading of the clock, or what a parse attempt returned.  A raw
    record whose other fields are read becomes a work order due at the reading
    of the clock when it has none of the keys [due_date], [deadline] and
    [due], when the value under the key is false, and when no attempt reads
    the value and none raises.  When an attempt raises ([fromtimestamp] on a
    number, [dateutil] on a text that is in none of the formats) no work order
    is built: the record is dropped and the failure is logged.  A record
    whose other fields are read is built exactly when no attempt raises. *)
Theorem normalized_due_date_is_set env url :
  (∀ data wo log,
     _create_work_order_from_data env data url = (Some wo, log) →
     ∃ d due,
       data = Py.VDict d
       ∧ Discovered.due_date wo = Some due
       ∧ (due = now env
          ∨ (∃ z, (raw_due d = Py.VInt z ∨ raw_due d = Py.VBool true ∧ z = 1%Z)
                  ∧ fromtimestamp env z = Ok due)
          ∨ (∃ s, raw_due d = Py.VStr s ∧ first_format env s formats = Some due)
          ∨ (∃ s parse, raw_due d = Py.VStr s ∧ first_format env s formats = None
                        ∧ dateutil_parse env = Some parse ∧ parse s = Ok due)))
  ∧ (∀ d, reads_other_fields env d →
       no_due_key d ∨ Py.truthy (raw_due d) = false
       ∨ passes_every_parse env (raw_due d) →
       ∃ wo log,
         _create_work_order_from_data env (Py.VDict d) url = (Some wo, log)
         ∧ Discovered.due_date wo = Some (now env))
  ∧ (∀ d e, parse_attempt_raises env (raw_due d) e →
       ∃ e', _create_work_order_from_data env (Py.VDict d) url
             = (None, [LogError "Failed to create work order from data" e' (Py.VDict d)])
             ∧ (reads_other_fields env d → e' = e))
  ∧ (∀ d, reads_other_fields env d →
       (∃ wo log, _create_work_order_from_data env (Py.VDict d) url = (Some wo, log))
       ↔ ¬ ∃ e, parse_attempt_raises env (raw_due d) e).
Proof.
  split_and!.
  - intros data wo log Hwo%create_Some.
    apply build_Ok in Hwo as (d & _ & _ & due & -> & _ & _ & Hdue & _ & _ & _ & _ & Hwo).
    exists d, due. split_and!; [done..|].
    destruct (parse_timestamp_cases env (raw_due d))
      as [[_ H]|[(_ & _ & H)|[(_ & e & _ & H)|(_ & due' & H & Hfrom)]]];
      rewrite H in Hdue; try done; injection Hdue as <-; [by left..|by right].
  - intros d ([s Hs] & [p Hp] & [c Hc] & [u Hu]) Hdue.
    assert (_parse_timestamp env (raw_due d) = Ok (now env)) as Hnow.
    { destruct Hdue as [Hkey|[Hfalse|Hpass]].
      - by rewrite raw_due_absent.
      - unfold _parse_timestamp. by rewrite Hfalse.
      - by apply passes_every_parse_spec. }
    destruct (build_total env d url s p c u (now env)) as (wo & Hwo & _ & _ & Hd); try done.
    unfold _create_work_order_from_data. rewrite Hwo. eauto.
  - intros d e Hraise%parse_attempt_raises_spec.
    destruct (build_raise_due env d url e Hraise) as (e' & Hbuild & He').
    exists e'. split; [|done]. by apply create_Raise.
  - intros d Hread. split.
    + intros (wo & log & Hwo%create_Some) [e Hraise%parse_attempt_raises_spec].
      destruct (build_raise_due env d url e Hraise) as (e' & Hbuild & _). congruence.
    + intros Hnone. destruct Hread as ([s Hs] & [p Hp] & [c Hc] & [u Hu]).
      destruct (_parse_timestamp env (raw_due d)) as [due|e] eqn:Hdue.
      * destruct (build_total env d url s p c u due) as (wo & Hwo & _); try done.
        unfold _create_work_order_from_data. rewrite Hwo. eauto.
      * destruct Hnone.
        destruct (parse_timestamp_cases env (raw_due d))
          as [[_ H]|[(_ & _ & H)|[(_ & e' & Hr & H)|(_ & due' & H & _)]]];
          rewrite H in Hdue; try done. by exists e'.
Qed.

(** The record of the scenario has no due date: it is due at the reading of
    the clock. *)
Lemma normalized_due_date_is_set_witness :
  ∃ wo log,
    _create_work_order_from_data Host.env Host.untitled_task "/api/tasks" = (Some wo, log)
    ∧ Discovered.due_date wo = Some (now Host.env).
Proof.
  apply (proj1 (proj2 (normalized_due_date_is_set Host.env "/api/tasks"))
           Host.untitled_task_fields).
  - unfold reads_other_fields. split_and!; eexists; reflexivity.
  - left. by split_and!.
Defined.

(** C10, as stated, fails: [fromtimestamp] raises on a due value in
    milliseconds, and the record of the scenario with that due value is
    dropped instead of being given the reading of the clock. *)
Lemma unreadable_due_date_drops_record :
  ¬ unread_due_date_becomes_now Host.env (Raw.task_due Raw.millis) "/api/tasks".
Proof.
  intros Hclaim. destruct Hclaim as (wo & log & Hwo & _).
  - right. right. exists ValueError. split; [done|]. by vm_compute.
  - vm_compute in Hwo. discriminate Hwo.
Qed.

End due_date.

(** ** Statistics *)

Section statistics.
Import WorkOrderIndex.
Implicit Types (idx : WorkOrderIndex.t) (wo : WorkOrder.t) (l : list WorkOrder.t).

Lemma status_filters_partition l :
  sum_list ((λ s, length (filter (λ wo, WorkOrder.status wo = s) l)) <$> all_statuses)
  = length l.
Proof.
  induction l as [|wo l IH]; [done|].
  unfold all_statuses in *. cbn [fmap list_fmap sum_list] in *.
  rewrite !filter_cons. destruct (WorkOrder.status wo); simpl in *; lia.
Qed.

Lemma priority_filters_partition l :
  sum_list ((λ p, length (filter (λ wo, WorkOrder.priority wo = p) l)) <$> all_priorities)
  = length l.
Proof.
  induction l as [|wo l IH]; [done|].
  unfold all_priorities in *. cbn [fmap list_fmap sum_list] in *.
  rewrite !filter_cons. destruct (WorkOrder.priority wo); simpl in *; lia.
Qed.

Lemma length_add_work_order idx wo :
  length (work_orders (add_work_order idx wo))
  = if decide (WorkOrder.id wo ∈ Dict.keys (work_orders idx))
    then length (work_orders idx) else S (length (work_orders idx)).
Proof.
  simpl. case_decide.
  - by apply dict_set_present.
  - rewrite dict_set_absent by done. rewrite length_app. simpl. lia.
Qed.

Lemma total_le_adds l : length (work_orders (add_all init l)) ≤ length l.
Proof.
  induction l as [|wo l IH] using rev_ind; [done|].
  rewrite add_all_snoc, length_add_work_order, length_app. simpl. case_decide; lia.
Qed.

(** X1.  The status counts and the priority counts of the statistics each add up
    to the number of [add_work_order] calls, which the number of stored work
    orders never exceeds and equals when every identifier was added once. *)
Theorem distribution_counts_add_calls l :
  let stats := get_statistics (add_all init l) in
  sum_list (status_distribution stats).*2 = length l
  ∧ sum_list (priority_distribution stats).*2 = length l
  ∧ total_work_orders stats ≤ length l
  ∧ (NoDup (WorkOrder.id <$> l) → total_work_orders stats = length l).
Proof.
  simpl. split_and!.
  - pose proof (status_filters_partition l) as Hsum. unfold all_statuses in Hsum.
    rewrite !status_add_all. simpl in *. rewrite !length_fmap. lia.
  - pose proof (priority_filters_partition l) as Hsum. unfold all_priorities in Hsum.
    rewrite !priority_add_all. simpl in *. rewrite !length_fmap. lia.
  - apply total_le_adds.
  - intros Hnd. rewrite work_orders_add_all_fresh by done. by rewrite length_fmap.
Qed.

(** X2.  [add_work_order] never removes anything: a stored identifier stays
    stored, the number of stored work orders grows by one for a new
    identifier and stays for a known one, and every status and priority
    bucket keeps its entries as a prefix. *)
Theorem add_never_removes idx wo :
  (∀ i, is_Some (get_work_order idx i) → is_Some (get_work_order (add_work_order idx wo) i))
  ∧ get_work_order (add_work_order idx wo) (WorkOrder.id wo) = Some wo
  ∧ length (work_orders (add_work_order idx wo))
    = (if decide (is_Some (get_work_order idx (WorkOrder.id wo)))
       then length (work_orders idx) else S (length (work_orders idx)))
  ∧ (∀ s, index_by_status idx s `prefix_of` index_by_status (add_work_order idx wo) s)
  ∧ (∀ p, index_by_priority idx p `prefix_of` index_by_priority (add_work_order idx wo) p).
Proof.
  split_and!.
  - intros i. unfold get_work_order. simpl.
    destruct (decide (WorkOrder.id wo = i)) as [<-|Hne].
    + rewrite dict_lookup_set_eq. eauto.
    + by rewrite dict_lookup_set_ne.
  - unfold get_work_order. simpl. apply dict_lookup_set_eq.
  - rewrite length_add_work_order. unfold get_work_order.
    destruct (decide (WorkOrder.id wo ∈ _)) as [Hin|Hin];
      destruct (decide (is_Some _)) as [Hsome|Hnone]; try done.
    + by apply dict_lookup_is_Some in Hin.
    + by apply dict_lookup_is_Some in Hsome.
  - intros s. simpl. unfold append_at. case_decide; [by apply prefix_app_r|done].
  - intros p. simpl. unfold append_at. case_decide; [by apply prefix_app_r|done].
Qed.

End statistics.

(** ** Filters by priority, assignee and tag *)

Section filters.
Import WorkOrderIndex.
Implicit Types (idx : WorkOrderIndex.t) (wo : WorkOrder.t) (l : list WorkOrder.t).

Lemma omap_const {A B C} (f : A → option B) (k : A) (v : B) (xs : list C) :
  f k = Some v → omap f ((λ _, k) <$> xs) = (λ _, v) <$> xs.
Proof. intros Hk. induction xs as [|x xs IH]; [done|]. csimpl. by rewrite Hk, IH. Qed.

Lemma filter_none {A} (P : A → Prop) `{∀ x, Decision (P x)} (xs : list A) :
  (∀ x, x ∈ xs → ¬ P x) → filter P xs = [].
Proof.
  induction xs as [|x xs IH]; intros Hxs; [done|].
  rewrite filter_cons_False by (apply Hxs, elem_of_cons; by left).
  apply IH. intros y Hy. apply Hxs, elem_of_cons. by right.
Qed.

Lemma records_bind_stored idx l (f : WorkOrder.t → list string) :
  (∀ wo, wo ∈ l → get_work_order idx (WorkOrder.id wo) = Some wo) →
  records idx (l ≫= λ wo, (λ _, WorkOrder.id wo) <$> f wo)
  = l ≫= λ wo, (λ _, wo) <$> f wo.
Proof.
  unfold records. induction l as [|wo l IH]; intros Hl; [done|].
  cbn [mbind list_bind]. rewrite omap_app, IH.
  - f_equal. apply omap_const. apply Hl, elem_of_cons. by left.
  - intros wo' Hwo'. apply Hl, elem_of_cons. by right.
Qed.

(** X3.  In an index built by adding records with pairwise distinct
    identifiers, the filters by priority and by assignee return exactly the
    records with that priority, respectively that (non-empty) assignee, in the
    order in which they were added; the filter by tag returns a record once
    for every time the tag stands in its tag list. *)
Theorem filters_return_matching_records l :
  NoDup (WorkOrder.id <$> l) →
  let idx := add_all init l in
  (∀ p, get_work_orders_by_priority idx p = filter (λ wo, WorkOrder.priority wo = p) l)
  ∧ (∀ a, get_work_orders_by_assigned idx a = filter (λ wo, assignee wo = Some a) l)
  ∧ (∀ t, get_work_orders_by_tag idx t
          = l ≫= λ wo, (λ _, wo) <$> filter (λ tag, tag = t) (WorkOrder.tags wo)).
Proof.
  intros Hnd idx. subst idx. split_and!.
  - intros p. unfold get_work_orders_by_priority. rewrite priority_add_all. simpl.
    apply records_of_stored. intros wo [_ Hin]%list_elem_of_filter.
    by apply get_add_all_fresh.
  - intros a. unfold get_work_orders_by_assigned. rewrite assigned_add_all. simpl.
    rewrite lookup_empty. simpl.
    apply records_of_stored. intros wo [_ Hin]%list_elem_of_filter.
    by apply get_add_all_fresh.
  - intros t. unfold get_work_orders_by_tag. rewrite tags_add_all. simpl.
    rewrite lookup_empty. simpl.
    apply (records_bind_stored _ l (λ wo, filter (λ tag, tag = t) (WorkOrder.tags wo))).
    intros wo Hin. by apply get_add_all_fresh.
Qed.

Lemma filters_return_matching_records_witness :
  let l := [Example.wo_1; Example.wo_2] in
  let idx := add_all init l in
  (∀ p, get_work_orders_by_priority idx p = filter (λ wo, WorkOrder.priority wo = p) l)
  ∧ (∀ a, get_work_orders_by_assigned idx a = filter (λ wo, assignee wo = Some a) l)
  ∧ (∀ t, get_work_orders_by_tag idx t
          = l ≫= λ wo, (λ _, wo) <$> filter (λ tag, tag = t) (WorkOrder.tags wo)).
Proof.
  apply filters_return_matching_records.
  apply (bool_decide_unpack _). vm_compute. exact I.
Defined.

(** X4.  Whatever was added, the filters by assignee and by tag return the
    empty list, not an error, for a name that no record carries; a record
    whose assignee is the empty string is in no assignee bucket, so the
    filter by the empty assignee is always empty. *)
Theorem unknown_filter_keys_give_nothing l :
  let idx := add_all init l in
  (∀ a, (∀ wo, wo ∈ l → WorkOrder.assigned_to wo ≠ Some a) →
        get_work_orders_by_assigned idx a = [])
  ∧ (∀ t, (∀ wo, wo ∈ l → t ∉ WorkOrder.tags wo) → get_work_orders_by_tag idx t = [])
  ∧ get_work_orders_by_assigned idx "" = [].
Proof.
  intros idx. subst idx.
  assert (∀ a, (∀ wo, wo ∈ l → assignee wo ≠ Some a) →
               get_work_orders_by_assigned (add_all init l) a = []) as Hassigned.
  { intros a Ha. unfold get_work_orders_by_assigned. rewrite assigned_add_all. simpl.
    rewrite lookup_empty. simpl.
    by rewrite filter_none. }
  split_and!.
  - intros a Ha. apply Hassigned. intros wo Hwo. unfold assignee.
    specialize (Ha wo Hwo). destruct (WorkOrder.assigned_to wo) as [a'|]; [|done].
    case_decide; [done|]. congruence.
  - intros t Ht. unfold get_work_orders_by_tag. rewrite tags_add_all. simpl.
    rewrite lookup_empty. simpl.
    replace (l ≫= _) with (@nil string); [done|].
    symmetry. apply elem_of_nil_inv. intros i (wo & Hin & _ & Htag)%elem_of_tag_postings.
    by apply (Ht wo).
  - apply Hassigned. intros wo _. unfold assignee.
    destruct (WorkOrder.assigned_to wo) as [a'|]; [|done]. case_decide; congruence.
Qed.

End filters.

(** ** What the counters of the statistics count *)

Section counters.
Import WorkOrderIndex.
Implicit Types (idx : WorkOrderIndex.t) (wo : WorkOrder.t) (l : list WorkOrder.t).
Implicit Types (m : gmap string (list string)).

Lemma dom_append_to m (k x : string) : dom (append_to m k x) = {[k]} ∪ dom m.
Proof. unfold append_to. apply dom_insert_L. Qed.

Lemma dom_tag_loop (tags : list string) (i : string) m :
  dom (fold_left (λ m tag, append_to m tag i) tags m) = list_to_set tags ∪ dom m.
Proof.
  revert m. induction tags as [|tag tags IH]; intros m; simpl; [set_solver|].
  rewrite IH, dom_append_to. set_solver.
Qed.

Lemma dom_assigned_add_all l :
  dom (index_by_assigned (add_all init l)) = list_to_set (omap assignee l).
Proof.
  induction l as [|wo l IH] using rev_ind; [simpl; by rewrite dom_empty_L|].
  rewrite add_all_snoc, omap_app, list_to_set_app_L. simpl.
  destruct (assignee wo) as [a|]; simpl.
  - rewrite dom_append_to, IH. set_solver.
  - rewrite IH. set_solver.
Qed.

Lemma dom_tags_add_all l :
  dom (index_by_tags (add_all init l)) = list_to_set (l ≫= WorkOrder.tags).
Proof.
  induction l as [|wo l IH] using rev_ind; [simpl; by rewrite dom_empty_L|].
  rewrite add_all_snoc, bind_app, list_to_set_app_L. simpl.
  rewrite dom_tag_loop, IH, app_nil_r. set_solver.
Qed.

Lemma dom_search_index_add_all l :
  dom (search_index (add_all init l)) = list_to_set (l ≫= WorkOrder.words).
Proof.
  apply set_eq. intros w.
  rewrite elem_of_dom, is_Some_search_index, elem_of_list_to_set, list_elem_of_bind.
  naive_solver.
Qed.

(** X5.  The counters of the statistics count keys, not work orders:
    [assigned_count] is the number of different non-empty assignees,
    [tags_count] the number of different tags and [search_index_size] the
    number of different words of all the records that were ever added. *)
Theorem statistics_count_distinct_keys l :
  let stats := get_statistics (add_all init l) in
  assigned_count stats = size (list_to_set (omap assignee l) : gset string)
  ∧ tags_count stats = size (list_to_set (l ≫= WorkOrder.tags) : gset string)
  ∧ search_index_size stats = size (list_to_set (l ≫= WorkOrder.words) : gset string).
Proof.
  simpl. rewrite <-dom_assigned_add_all, <-dom_tags_add_all, <-dom_search_index_add_all.
  by rewrite !size_dom.
Qed.

End counters.

(** ** More on search *)

Section search_results.
Import WorkOrderIndex.
Implicit Types (idx : WorkOrderIndex.t) (wo : WorkOrder.t) (l : list WorkOrder.t).

Lemma lower_char_idemp (c : ascii) : Text.lower_char (Text.lower_char c) = Text.lower_char c.
Proof.
  destruct c as [[] [] [] [] [] [] [] []]; reflexivity.
Qed.

Lemma lower_idemp (s : string) : Text.lower (Text.lower s) = Text.lower s.
Proof. induction s as [|c s IH]; [done|]. simpl. by rewrite lower_char_idemp, IH. Qed.

Lemma NoDup_records_own_id idx (ids : list string) :
  (∀ j wo, get_work_order idx j = Some wo → WorkOrder.id wo = j) →
  NoDup ids → NoDup (records idx ids).
Proof.
  intros Hown Hnd. unfold records. induction Hnd as [|j ids Hj Hnd IH]; [constructor|].
  simpl. destruct (Dict.lookup (work_orders idx) j) as [wo|] eqn:Hwo; [|done].
  constructor; [|done]. intros (j' & Hj' & Hwo')%list_elem_of_omap.
  apply Hown in Hwo, Hwo'. congruence.
Qed.

(** X6.  After any sequence of [add_work_order] calls, a search returns no
    record twice, every record it returns is the one stored under its own
    identifier, and the letter case of the query does not matter. *)
Theorem search_results_are_stored_once l (query : string) :
  let idx := add_all init l in
  NoDup (search_work_orders idx query)
  ∧ (∀ wo, wo ∈ search_work_orders idx query →
       get_work_order idx (WorkOrder.id wo) = Some wo)
  ∧ search_work_orders idx (Text.lower query) = search_work_orders idx query.
Proof.
  intros idx. subst idx.
  assert (∀ j wo, get_work_order (add_all init l) j = Some wo → WorkOrder.id wo = j)
    as Hown by (intros j wo [_ ?]%get_add_all_init; done).
  split_and!.
  - apply NoDup_records_own_id; [done | apply NoDup_elements].
  - intros wo (j & _ & Hj)%elem_of_records. by rewrite (Hown _ _ Hj).
  - unfold search_work_orders, matching. by rewrite lower_idemp.
Qed.

End search_results.

(** ** The shape of an export and the outcome of an import *)

Section documents.
Import WorkOrderIndex.
Implicit Types (idx : WorkOrderIndex.t) (wo : WorkOrder.t) (l : list WorkOrder.t).
Implicit Types (d : WorkOrderDict.t) (ds : list WorkOrderDict.t).

(** Every record is stored under its own identifier. *)
Lemma keys_are_ids l :
  Dict.keys (work_orders (add_all init l)) = WorkOrder.id <$> Dict.values (work_orders (add_all init l)).
Proof.
  unfold Dict.keys, Dict.values. rewrite <-list_fmap_compose.
  apply list_fmap_ext. intros n [k wo] Hn. simpl.
  assert (get_work_order (add_all init l) k = Some wo) as Hget.
  { unfold get_work_order.
    pose proof (NoDup_keys_add_all l) as Hnd. unfold Dict.keys in Hnd.
    revert Hnd. apply list_elem_of_lookup_2 in Hn. revert Hn.
    generalize (work_orders (add_all init l)) as store.
    induction store as [|[k' wo'] store IH]; [by intros ?%elem_of_nil|].
    intros Hin [Hfresh Hnd]%NoDup_cons. simpl.
    apply elem_of_cons in Hin as [[= <- <-]|Hin]; [by rewrite decide_True|].
    rewrite decide_False; [by apply IH|]. intros ->. apply Hfresh.
    by apply (list_elem_of_fmap_2 fst) in Hin. }
  by apply get_add_all_init in Hget as [_ ?].
Qed.

(** X7.  The export of an index built by [add_work_order] calls lists every
    stored work order exactly once (also when an identifier was added several
    times): the identifiers of its records are pairwise distinct, there are as
    many records as the statistics in the document say, and the records are
    the serialized stored work orders, in the order of the store. *)
Theorem export_lists_store_once l (now : Datetime.t) :
  let idx := add_all init l in
  let doc := export_to_json idx now in
  NoDup (WorkOrderDict.id <$> doc_work_orders doc)
  ∧ length (doc_work_orders doc) = total_work_orders (doc_statistics doc)
  ∧ doc_work_orders doc = WorkOrder.to_dict <$> Dict.values (work_orders idx)
  ∧ (∀ wo, wo ∈ Dict.values (work_orders idx)
           ↔ get_work_order idx (WorkOrder.id wo) = Some wo)
  ∧ doc_statistics doc = get_statistics idx.
Proof.
  intros idx doc. subst idx doc. simpl. split_and!; try done.
  - rewrite <-list_fmap_compose.
    change (WorkOrderDict.id ∘ WorkOrder.to_dict) with WorkOrder.id.
    rewrite <-keys_are_ids. apply NoDup_keys_add_all.
  - unfold Dict.values. by rewrite !length_fmap.
  - intros wo. rewrite elem_of_dict_values by apply NoDup_keys_add_all. split.
    + intros [k Hk]. change (get_work_order (add_all init l) k = Some wo) in Hk.
      by destruct (get_add_all_init _ _ _ Hk) as [_ <-].
    + intros Hget. by exists (WorkOrder.id wo).
Qed.

Lemma get_add_work_order_mono idx wo (i : string) :
  is_Some (get_work_order idx i) → is_Some (get_work_order (add_work_order idx wo) i).
Proof.
  unfold get_work_order. simpl. destruct (decide (WorkOrder.id wo = i)) as [<-|Hne].
  - rewrite dict_lookup_set_eq. eauto.
  - by rewrite dict_lookup_set_ne.
Qed.

Lemma import_records_Ok_iff idx ds :
  (import_records idx ds).2 = Ok ()
  ↔ Forall (λ d, ∃ wo, WorkOrder.from_dict d = Ok wo) ds.
Proof.
  revert idx. induction ds as [|d ds IH]; intros idx.
  - split; [intros _; constructor | done].
  - cbn [import_records]. rewrite Forall_cons.
    destruct (WorkOrder.from_dict d) as [wo|e] eqn:Hd.
    + rewrite IH. split; [intros ?; split; [by exists wo | done] | by intros [_ ?]].
    + split; [done|]. by intros [[wo Hwo] _].
Qed.

(** X8.  An import succeeds exactly when [from_dict] reads every record of the
    document.  Whether it succeeds or not, it removes nothing: every
    identifier that was stored before is stored afterwards, and the number of
    stored work orders grows by at most the number of records of the document.
    The empty document leaves the index as it is. *)
Theorem import_outcome idx (doc : Document) :
  let imported := import_from_json idx doc in
  (imported.2 = Ok ()
   ↔ Forall (λ d, ∃ wo, WorkOrder.from_dict d = Ok wo) (doc_work_orders doc))
  ∧ (∀ i, is_Some (get_work_order idx i) → is_Some (get_work_order imported.1 i))
  ∧ length (work_orders idx) ≤ length (work_orders imported.1)
    ≤ length (work_orders idx) + length (doc_work_orders doc)
  ∧ (doc_work_orders doc = [] → imported = (idx, Ok ())).
Proof.
  intros imported. subst imported. unfold import_from_json.
  generalize (doc_work_orders doc) as ds. intros ds. split_and!.
  - apply import_records_Ok_iff.
  - revert idx. induction ds as [|d ds IH]; intros idx i Hi; [done|]. simpl.
    destruct (WorkOrder.from_dict d) as [wo|e]; [|done].
    apply IH. by apply get_add_work_order_mono.
  - revert idx. induction ds as [|d ds IH]; intros idx; simpl; [lia|].
    destruct (WorkOrder.from_dict d) as [wo|e]; simpl; [|lia].
    specialize (IH (add_work_order idx wo)). rewrite length_add_work_order in IH.
    case_decide; lia.
  - revert idx. induction ds as [|d ds IH]; intros idx; simpl; [lia|].
    destruct (WorkOrder.from_dict d) as [wo|e]; simpl; [|lia].
    specialize (IH (add_work_order idx wo)). rewrite length_add_work_order in IH.
    case_decide; lia.
  - by intros ->.
Qed.

(** X9.  [WorkOrderStatus(value)] and [WorkOrderPriority(value)] succeed on
    exactly the value strings of the members, spelled in lower case, and give
    back the member; every other string, such as a value in upper case, raises
    [ValueError]. *)
Theorem enum_of_value_iff :
  (∀ v s, status_of_value v = Ok s ↔ v = status_value s)
  ∧ (∀ v p, priority_of_value v = Ok p ↔ v = priority_value p)
  ∧ (∀ v, (∀ s, v ≠ status_value s) → status_of_value v = Raise ValueError)
  ∧ (∀ v, (∀ p, v ≠ priority_value p) → priority_of_value v = Raise ValueError)
  ∧ status_of_value "QUEUED" = Raise ValueError.
Proof.
  assert (∀ v s, status_of_value v = Ok s → v = status_value s) as Hs.
  { intros v s. unfold status_of_value, all_statuses. simpl.
    repeat (case_bool_decide; [intros [= <-]; by subst|]). done. }
  assert (∀ v p, priority_of_value v = Ok p → v = priority_value p) as Hp.
  { intros v p. unfold priority_of_value, all_priorities. simpl.
    repeat (case_bool_decide; [intros [= <-]; by subst|]). done. }
  split_and!.
  - intros v s. split; [apply Hs | intros ->; apply status_of_value_value].
  - intros v p. split; [apply Hp | intros ->; apply priority_of_value_value].
  - intros v Hv. destruct (status_of_value v) as [s|e] eqn:Hsv.
    + by destruct (Hv s (Hs _ _ Hsv)).
    + f_equal. by eapply status_of_value_raise.
  - intros v Hv. destruct (priority_of_value v) as [p|e] eqn:Hpv.
    + by destruct (Hv p (Hp _ _ Hpv)).
    + f_equal. by eapply priority_of_value_raise.
  - reflexivity.
Qed.

End documents.

(** ** Export followed by import *)

Section round_trip.
Import WorkOrderIndex.
Implicit Types (idx : WorkOrderIndex.t) (wo : WorkOrder.t) (l : list WorkOrder.t).

(** The store pairs every record with its own identifier. *)
Lemma store_of_values l :
  work_orders (add_all init l)
  = (λ wo, (WorkOrder.id wo, wo)) <$> Dict.values (work_orders (add_all init l)).
Proof.
  pose proof (keys_are_ids l) as Hkeys. revert Hkeys.
  unfold Dict.keys, Dict.values. generalize (work_orders (add_all init l)) as store.
  induction store as [|[k wo] store IH]; [done|]. simpl.
  intros [= -> Hrest]. f_equal. by apply IH.
Qed.

Lemma values_are_added l wo :
  wo ∈ Dict.values (work_orders (add_all init l)) → wo ∈ l.
Proof.
  rewrite elem_of_dict_values by apply NoDup_keys_add_all. intros [k Hk].
  change (get_work_order (add_all init l) k = Some wo) in Hk.
  by apply get_add_all_init in Hk as [? _].
Qed.

(** The index counts as many records as there were calls only if no
    identifier was added twice. *)
Lemma total_eq_adds_NoDup l :
  length (work_orders (add_all init l)) = length l → NoDup (WorkOrder.id <$> l).
Proof.
  induction l as [|wo l IH] using rev_ind; [intros _; apply NoDup_nil_2|].
  rewrite add_all_snoc, length_add_work_order, length_app. simpl.
  pose proof (total_le_adds l) as Hle. case_decide as Hin; [lia|]. intros Hlen.
  rewrite fmap_app. apply NoDup_app. split_and!.
  - apply IH. lia.
  - intros i Hi ->%list_elem_of_singleton. apply Hin.
    apply list_elem_of_fmap in Hi as (wo' & -> & Hwo'). by apply keys_add_all.
  - apply NoDup_singleton.
Qed.

Lemma status_counts_add_up l :
  sum_list (status_distribution (get_statistics (add_all init l))).*2 = length l.
Proof.
  pose proof (status_filters_partition l) as Hsum. unfold all_statuses in Hsum.
  simpl. rewrite !status_add_all. simpl in *. rewrite !length_fmap. lia.
Qed.

(** C3 (amended).  For an index built by adding records (time stamps in the
    range of [datetime]), the import of its export into a fresh index succeeds
    and gives an index with the same store: under every identifier the same
    record is retrieved, with all its fields (time stamps equal to the
    microsecond), and as many work orders are counted.  The statistics of the
    two indexes are equal exactly when no identifier was added twice. *)
Theorem export_import_round_trip l (now : Datetime.t) :
  Forall valid_stamps l →
  let idx := add_all init l in
  let imported := import_from_json init (export_to_json idx now) in
  imported.2 = Ok ()
  ∧ work_orders imported.1 = work_orders idx
  ∧ (∀ i, get_work_order imported.1 i = get_work_order idx i)
  ∧ total_work_orders (get_statistics imported.1) = total_work_orders (get_statistics idx)
  ∧ (get_statistics imported.1 = get_statistics idx ↔ NoDup (WorkOrder.id <$> l)).
Proof.
  intros Hvalid idx imported.
  set (stored := Dict.values (work_orders idx)).
  assert (imported = (add_all init stored, Ok ())) as Himp.
  { subst imported. unfold import_from_json, export_to_json. simpl.
    apply import_records_ok. fold stored.
    apply Forall2_fmap_l, Forall_Forall2_diag, Forall_forall.
    intros wo Hwo. apply from_dict_to_dict.
    rewrite Forall_forall in Hvalid. by apply Hvalid, values_are_added. }
  assert (NoDup (WorkOrder.id <$> stored)) as Hnd.
  { subst stored idx. rewrite <-keys_are_ids. apply NoDup_keys_add_all. }
  assert (work_orders (add_all init stored) = work_orders idx) as Hstore.
  { rewrite work_orders_add_all_fresh by done. subst stored idx.
    by rewrite <-store_of_values. }
  rewrite Himp. simpl. split_and!; [done|done| | |].
  - intros i. unfold get_work_order. by rewrite Hstore.
  - by rewrite Hstore.
  - split.
    + intros Hstats. apply total_eq_adds_NoDup. fold idx.
      rewrite <-(status_counts_add_up l). fold idx. rewrite <-Hstats.
      rewrite status_counts_add_up, <-Hstore.
      rewrite work_orders_add_all_fresh by done. by rewrite length_fmap.
    + intros Hl. assert (stored = l) as ->; [|done].
      subst stored idx. rewrite work_orders_add_all_fresh by done.
      unfold Dict.values. rewrite <-list_fmap_compose. apply list_fmap_id.
Qed.

(** [wo_1] was added twice: the import succeeds and retrieves the second
    record. *)
Lemma export_import_round_trip_witness :
  let idx := add_all init [Example.wo_1; Example.wo_2; Example.wo_1_done] in
  let imported := import_from_json init (export_to_json idx Example.stamp) in
  imported.2 = Ok ()
  ∧ work_orders imported.1 = work_orders idx
  ∧ (∀ i, get_work_order imported.1 i = get_work_order idx i)
  ∧ total_work_orders (get_statistics imported.1) = total_work_orders (get_statistics idx)
  ∧ (get_statistics imported.1 = get_statistics idx
     ↔ NoDup (WorkOrder.id <$> [Example.wo_1; Example.wo_2; Example.wo_1_done])).
Proof.
  apply export_import_round_trip.
  repeat apply Forall_cons_2; [repeat split.. | apply Forall_nil_2].
Defined.

End round_trip.

(** ** More on the normalizer *)

Section normalizer_fields.
Import WorkOrderDiscovery.
Implicit Types (env : Env) (d : list (string * Py.value)) (wo : Discovered.t) (url : string).

(** All the fields of a work order that the normalizer built. *)
Lemma build_fields env d url wo :
  build env (Py.VDict d) url = Ok wo →
  ∃ s p c u due,
    raw_status d = Py.VStr s ∧ raw_priority d = Py.VStr p
    ∧ _parse_timestamp env (raw_created d) = Ok c
    ∧ _parse_timestamp env (raw_updated d) = Ok u
    ∧ _parse_timestamp env (raw_due d) = Ok due
    ∧ wo = Discovered.mk
        (if decide (Py.str (raw_id d) = "") then content_id d else Py.str (raw_id d))
        (Py.get d "title" (Py.get d "name" (Py.get d "subject" (Py.VStr "Untitled Work Order"))))
        (Py.get d "description" (Py.get d "details" (Py.get d "summary" (Py.VStr ""))))
        (map_status (Text.lower s)) (map_priority (Text.lower p)) c u
        (match raw_assigned d with
         | Py.VDict a =>
             if Py.truthy (raw_assigned d)
             then Py.get a "name" (Py.get a "email" (Py.VStr (Py.str (raw_assigned d))))
             else raw_assigned d
         | _ => raw_assigned d
         end)
        (Some due)
        (match raw_tags d with
         | Py.VStr s => (λ tag, Py.VStr (Text.strip tag)) <$> Text.split "," s
         | Py.VList l => l
         | _ => []
         end)
        (Dict.set (List.filter (λ kv, negb (bool_decide (kv.1 ∈ canonical_keys))) d)
           "source_url" (Py.VStr url))
        "8090_factory".
Proof.
  unfold build.
  destruct (raw_status d) as [| | |s| |] eqn:Hs; try done.
  destruct (raw_priority d) as [| | |p| |] eqn:Hp; try done.
  cbn [lower_of mbind result_bind].
  destruct (_parse_timestamp env (raw_created d)) as [c|] eqn:Hc; [|done].
  destruct (_parse_timestamp env (raw_updated d)) as [u|] eqn:Hu; [|done].
  destruct (_parse_timestamp env (raw_due d)) as [due|] eqn:Hdue; [|done].
  cbn [mbind result_bind]. intros [= <-]. by exists s, p, c, u, due.
Qed.

Lemma create_fields env d url wo log :
  _create_work_order_from_data env (Py.VDict d) url = (Some wo, log) →
  build env (Py.VDict d) url = Ok wo.
Proof. apply create_Some. Qed.

(** X10.  The identifier of a normalized record is the text of the value under
    the first of the keys [id], [_id], [work_order_id] that is present; only
    when that text is empty is it the content hash.  A present [id] hides the
    other two keys even when it is empty, and an [id] that is [None] gives the
    identifier [None]. *)
Theorem identifier_comes_from_first_present_key env d url wo log :
  _create_work_order_from_data env (Py.VDict d) url = (Some wo, log) →
  (∀ v, Dict.lookup d "id" = Some v →
        Discovered.id wo = if decide (Py.str v = "") then content_id d else Py.str v)
  ∧ (∀ v, Dict.lookup d "id" = None → Dict.lookup d "_id" = Some v →
          Discovered.id wo = if decide (Py.str v = "") then content_id d else Py.str v)
  ∧ (∀ v, Dict.lookup d "id" = None → Dict.lookup d "_id" = None →
          Dict.lookup d "work_order_id" = Some v →
          Discovered.id wo = if decide (Py.str v = "") then content_id d else Py.str v)
  ∧ (Dict.lookup d "id" = Some (Py.VStr "") → Discovered.id wo = content_id d)
  ∧ (Dict.lookup d "id" = Some Py.VNone → Discovered.id wo = "None").
Proof.
  intros Hwo%create_fields.
  apply build_fields in Hwo as (s & p & c & u & due & _ & _ & _ & _ & _ & ->). simpl.
  unfold raw_id, Py.get. split_and!.
  - by intros v ->.
  - by intros v -> ->.
  - by intros v -> -> ->.
  - by intros ->.
  - by intros ->.
Qed.

Lemma identifier_comes_from_first_present_key_witness :
  ∃ wo, Discovered.id wo = "wo_7".
Proof.
  destruct (_create_work_order_from_data Host.env
              (Py.VDict [("id", Py.VStr "wo_7"); ("_id", Py.VStr "other")]) "/api/tasks")
    as [[wo|] log] eqn:Hwo; [|discriminate Hwo].
  exists wo.
  destruct (identifier_comes_from_first_present_key _ _ _ _ _ Hwo) as (Hid & _).
  by rewrite (Hid (Py.VStr "wo_7") eq_refl).
Defined.

Lemma dict_lookup_filter_keys {V} (P : string → bool) (d : list (string * V)) (k : string) :
  Dict.lookup (List.filter (λ kv, P kv.1) d) k = if P k then Dict.lookup d k else None.
Proof.
  induction d as [|[k' v'] d IH]; simpl; [by destruct (P k)|].
  destruct (P k') eqn:Hk'; simpl.
  - destruct (decide (k' = k)) as [->|Hne]; [by rewrite Hk'|]. by rewrite IH.
  - rewrite IH. destruct (decide (k' = k)) as [->|Hne]; [by rewrite Hk'|done].
Qed.

Lemma lookup_without_canonical_keys (d : list (string * Py.value)) (k : string) :
  Dict.lookup (List.filter (λ kv, negb (bool_decide (kv.1 ∈ canonical_keys))) d) k
  = if bool_decide (k ∈ canonical_keys) then None else Dict.lookup d k.
Proof.
  pose proof (dict_lookup_filter_keys (λ k, negb (bool_decide (k ∈ canonical_keys))) d k)
    as Hfilter.
  cbv beta in Hfilter. rewrite Hfilter. by destruct (bool_decide (k ∈ canonical_keys)).
Qed.

(** X11.  The metadata of a normalized record has the source reference under
    [source_url] (a raw value under that key is overwritten), has none of the
    ten canonical keys, and keeps every other key of the raw record with its
    value, the alias keys such as [name], [state] or [deadline] included. *)
Theorem metadata_keeps_non_canonical_keys env d url wo log :
  _create_work_order_from_data env (Py.VDict d) url = (Some wo, log) →
  Dict.lookup (Discovered.metadata wo) "source_url" = Some (Py.VStr url)
  ∧ (∀ k, k ∈ canonical_keys → Dict.lookup (Discovered.metadata wo) k = None)
  ∧ (∀ k, k ∉ canonical_keys → k ≠ "source_url" →
          Dict.lookup (Discovered.metadata wo) k = Dict.lookup d k).
Proof.
  intros Hwo%create_fields.
  apply build_fields in Hwo as (s & p & c & u & due & _ & _ & _ & _ & _ & ->).
  cbn [Discovered.metadata]. split_and!.
  - apply dict_lookup_set_eq.
  - intros k Hk. rewrite dict_lookup_set_ne.
    + by rewrite lookup_without_canonical_keys, bool_decide_eq_true_2.
    + intros <-. revert Hk. unfold canonical_keys. set_solver.
  - intros k Hk Hne. rewrite dict_lookup_set_ne by done.
    by rewrite lookup_without_canonical_keys, bool_decide_eq_false_2.
Qed.

Lemma metadata_keeps_non_canonical_keys_witness :
  ∃ wo, Dict.lookup (Discovered.metadata wo) "source_url" = Some (Py.VStr "/api/tasks")
        ∧ Dict.lookup (Discovered.metadata wo) "state" = Some (Py.VStr "active").
Proof.
  destruct (_create_work_order_from_data Host.env Host.untitled_task "/api/tasks")
    as [[wo|] log] eqn:Hwo; [|discriminate Hwo].
  exists wo.
  destruct (metadata_keeps_non_canonical_keys _ Host.untitled_task_fields _ _ _ Hwo)
    as (Hurl & _ & Hkeep).
  split; [done|]. rewrite Hkeep; [done | | done].
  apply (bool_decide_unpack _). vm_compute. exact I.
Defined.

End normalizer_fields.

(** ** Tags, time stamps and batches *)

Section normalizer_batches.
Import WorkOrderDiscovery.
Implicit Types (env : Env) (d : list (string * Py.value)) (wo : Discovered.t) (url : string).

Lemma split_from_nonempty (sep : ascii) (cur s : string) : Text.split_from sep cur s ≠ [].
Proof.
  revert cur. induction s as [|c s IH]; intros cur; simpl; [done|].
  destruct (decide (c = sep)); [done | apply IH].
Qed.

(** X12.  The tags of a normalized record come from the first present key
    among [tags], [labels] and [categories]: a string is split at the commas
    and every piece is stripped, which always gives at least one tag (the
    empty string gives one empty tag); a list is kept as it is; any other
    value, and the absence of the three keys, gives no tags. *)
Theorem tags_are_split_or_kept env d url wo log :
  _create_work_order_from_data env (Py.VDict d) url = (Some wo, log) →
  (∀ s, raw_tags d = Py.VStr s →
        Discovered.tags wo = (λ tag, Py.VStr (Text.strip tag)) <$> Text.split "," s
        ∧ Discovered.tags wo ≠ [])
  ∧ (raw_tags d = Py.VStr "" → Discovered.tags wo = [Py.VStr ""])
  ∧ (∀ l, raw_tags d = Py.VList l → Discovered.tags wo = l)
  ∧ ((∀ s, raw_tags d ≠ Py.VStr s) → (∀ l, raw_tags d ≠ Py.VList l) →
     Discovered.tags wo = [])
  ∧ (Dict.lookup d "tags" = None → Dict.lookup d "labels" = None →
     Dict.lookup d "categories" = None → Discovered.tags wo = []).
Proof.
  intros Hwo%create_fields.
  apply build_fields in Hwo as (s & p & c & u & due & _ & _ & _ & _ & _ & ->).
  cbn [Discovered.tags]. split_and!.
  - intros s' ->. split; [done|]. intros Hnil%fmap_nil_inv.
    by apply split_from_nonempty in Hnil.
  - by intros ->.
  - by intros l ->.
  - intros Hstr Hlist. destruct (raw_tags d) as [| | |s'| l |]; try done.
    + by destruct (Hstr s').
    + by destruct (Hlist l).
  - unfold raw_tags, Py.get. by intros -> -> ->.
Qed.

Lemma tags_are_split_or_kept_witness :
  ∃ wo, Discovered.tags wo = [Py.VStr "bug"; Py.VStr "auth"; Py.VStr ""].
Proof.
  destruct (_create_work_order_from_data Host.env
              (Py.VDict [("title", Py.VStr "Fix login"); ("labels", Py.VStr " bug, auth ,")])
              "/api/tasks")
    as [[wo|] log] eqn:Hwo; [|discriminate Hwo].
  exists wo.
  destruct (tags_are_split_or_kept _ _ _ _ _ Hwo) as (Hstr & _).
  destruct (Hstr " bug, auth ," eq_refl) as [-> _]. reflexivity.
Defined.

Lemma first_format_app env (s : string) (pre post : list string) :
  (∀ f, f ∈ pre → strptime env s f = None) →
  first_format env s (pre ++ post) = first_format env s post.
Proof.
  induction pre as [|f pre IH]; intros Hpre; [done|]. simpl.
  rewrite Hpre by (apply elem_of_cons; by left).
  apply IH. intros f' Hf'. apply Hpre, elem_of_cons. by right.
Qed.

(** X13.  [_parse_timestamp] gives the reading of the clock for every false
    value, the number 0 (the epoch) included.  For a string the first format
    of the list that [strptime] accepts decides.  On a host without
    [dateutil] it raises for no value but a number, for which it is
    [fromtimestamp]. *)
Theorem parse_timestamp_falls_back_to_clock env :
  (∀ v, Py.truthy v = false → _parse_timestamp env v = Ok (now env))
  ∧ _parse_timestamp env (Py.VInt 0) = Ok (now env)
  ∧ (∀ s pre fmt post dt,
       formats = pre ++ fmt :: post → s ≠ "" →
       (∀ f, f ∈ pre → strptime env s f = None) → strptime env s fmt = Some dt →
       _parse_timestamp env (Py.VStr s) = Ok dt)
  ∧ (∀ z, z ≠ 0%Z → _parse_timestamp env (Py.VInt z) = fromtimestamp env z)
  ∧ (dateutil_parse env = None →
     ∀ v, (∀ z, v ≠ Py.VInt z) → v ≠ Py.VBool true →
          ∃ dt, _parse_timestamp env v = Ok dt).
Proof.
  split_and!.
  - intros v Hv. unfold _parse_timestamp. by rewrite Hv.
  - done.
  - intros s pre fmt post dt Hformats Hs Hpre Hfmt. unfold _parse_timestamp.
    replace (negb (Py.truthy (Py.VStr s))) with false
      by (cbn [Py.truthy]; by rewrite bool_decide_eq_false_2).
    rewrite Hformats, first_format_app by done. cbn [first_format]. by rewrite Hfmt.
  - intros z Hz. unfold _parse_timestamp. simpl.
    by destruct (Z.eqb_spec z 0).
  - intros Hpkg v Hint Hbool. unfold _parse_timestamp.
    destruct (negb (Py.truthy v)) eqn:Hfalse; [eauto|].
    destruct v as [|[|]|z|s|l|o]; try by eauto.
    + by destruct (Hint z).
    + destruct (first_format env s formats); [eauto|]. rewrite Hpkg. eauto.
Qed.

Lemma count_errors_app (log log' : list log_entry) :
  count_errors (log ++ log') = count_errors log + count_errors log'.
Proof. unfold count_errors. by rewrite List.filter_app, length_app. Qed.

(** X14.  The batch loop accounts for every item: each item leaves exactly
    one log entry, and it either yields a work order or an error entry, never
    both and never neither. *)
Theorem normalize_items_accounts_for_every_item env url (items : list Py.value) :
  let result := normalize_items env url items in
  length result.1 + count_errors result.2 = length items
  ∧ length result.2 = length items.
Proof.
  simpl. induction items as [|item items [IH1 IH2]]; [done|]. simpl.
  unfold _create_work_order_from_data.
  destruct (build env item url) as [wo|e];
    destruct (normalize_items env url items) as [wos logs]; simpl in *;
    unfold count_errors in *; simpl; lia.
Qed.

Lemma extract_patterns_absent env (data : list (string * Py.value)) url (ps : list string) :
  (∀ p, p ∈ ps → ∀ items, Dict.lookup data p ≠ Some (Py.VList items)) →
  extract_patterns env data url ps = ([], []).
Proof.
  induction ps as [|p ps IH]; intros Hps; [done|]. simpl.
  rewrite IH by (intros p' Hp'; apply Hps, elem_of_cons; by right).
  destruct (Dict.lookup data p) as [[| | | |items|]|] eqn:Hp; try done.
  by destruct (Hps p (list_elem_of_here _ _) items).
Qed.

Lemma extract_patterns_single env (data : list (string * Py.value)) url
    (ps : list string) (k : string) (items : list Py.value) :
  NoDup ps → k ∈ ps → Dict.lookup data k = Some (Py.VList items) →
  (∀ p, p ∈ ps → p ≠ k → Dict.lookup data p = None) →
  extract_patterns env data url ps = normalize_items env url items.
Proof.
  induction ps as [|p ps IH]; intros Hnd Hk Hitems Hrest; [by apply elem_of_nil in Hk|].
  apply NoDup_cons in Hnd as [Hfresh Hnd]. simpl.
  apply elem_of_cons in Hk as [<-|Hk].
  - rewrite Hitems, extract_patterns_absent.
    + destruct (normalize_items env url items). by rewrite !app_nil_r.
    + intros p Hp items'. rewrite Hrest; [done | by apply elem_of_cons; right |].
      by intros ->.
  - rewrite Hrest; [| apply list_elem_of_here | by intros ->].
    rewrite IH; try done.
    + by destruct (normalize_items env url items).
    + intros p' Hp'. apply Hrest, elem_of_cons. by right.
Qed.

(** X15.  [_extract_work_orders_from_dict] looks under the nine pattern keys
    only and uses only lists: a mapping that has a list under none of the keys
    gives no work order and logs nothing, and a mapping with a list under one
    pattern key and no other pattern key gives what the batch loop gives for
    that list. *)
Theorem extract_reads_pattern_lists env (data : list (string * Py.value)) url :
  ((∀ p, p ∈ work_order_patterns → ∀ items, Dict.lookup data p ≠ Some (Py.VList items)) →
   _extract_work_orders_from_dict env data url = ([], []))
  ∧ (∀ k items,
       k ∈ work_order_patterns → Dict.lookup data k = Some (Py.VList items) →
       (∀ p, p ∈ work_order_patterns → p ≠ k → Dict.lookup data p = None) →
       _extract_work_orders_from_dict env data url = normalize_items env url items).
Proof.
  split.
  - apply extract_patterns_absent.
  - intros k items. apply extract_patterns_single.
    apply (bool_decide_unpack _). vm_compute. exact I.
Qed.

End normalizer_batches.

(** ** The [list] command *)

Section list_command.
Import CLI.
Implicit Types (a b c x y : WorkOrder.t) (rows : list WorkOrder.t).

Lemma older_spec a b : older a b = true ↔ lexico (created_key a) (created_key b).
Proof.
  unfold older. destruct (trichotomyT lexico (created_key a) (created_key b))
    as [[Hlt|Heq]|Hgt]; split; try done.
  - rewrite Heq. intros Hirr. by apply (irreflexivity lexico) in Hirr.
  - intros Hlt. destruct (irreflexivity lexico (created_key a)). by etrans.
Qed.

Lemma older_not_older a b : older a b = true → not_older b a.
Proof.
  intros Hab%older_spec. unfold not_older. apply not_true_is_false.
  intros Hba%older_spec. destruct (irreflexivity lexico (created_key a)). by etrans.
Qed.

Lemma not_older_trans a b c : not_older a b → not_older b c → not_older a c.
Proof.
  unfold not_older. intros Hab Hbc. apply not_true_is_false. intros Hac%older_spec.
  destruct (trichotomyT lexico (created_key a) (created_key b)) as [[Hlt|Heq]|Hgt].
  - apply older_spec in Hlt. congruence.
  - rewrite Heq in Hac. apply older_spec in Hac. congruence.
  - assert (lexico (created_key b) (created_key c)) as Hlt by by etrans.
    apply older_spec in Hlt. congruence.
Qed.

Lemma insert_newest_perm x rows : insert_newest x rows ≡ₚ x :: rows.
Proof.
  induction rows as [|y rows IH]; [done|]. simpl.
  destruct (older x y); [|done]. rewrite IH. apply Permutation_swap.
Qed.

Lemma sort_newest_first_perm rows : sort_newest_first rows ≡ₚ rows.
Proof.
  induction rows as [|x rows IH]; [done|]. simpl.
  by rewrite insert_newest_perm, IH.
Qed.

Lemma insert_newest_sorted x rows :
  StronglySorted not_older rows → StronglySorted not_older (insert_newest x rows).
Proof.
  induction 1 as [|y rows Hsorted IH Hy]; simpl.
  - repeat constructor.
  - destruct (older x y) eqn:Hxy.
    + constructor; [done|]. rewrite insert_newest_perm.
      constructor; [by apply older_not_older | done].
    + constructor; [by constructor|]. constructor; [done|].
      eapply Forall_impl; [done|]. intros z Hz. by eapply not_older_trans.
Qed.

Lemma sort_newest_first_sorted rows : StronglySorted not_older (sort_newest_first rows).
Proof.
  induction rows as [|x rows IH]; [constructor|]. simpl. by apply insert_newest_sorted.
Qed.

Lemma insert_newest_stable x rows (k : N * (N * (N * (N * (N * (N * N)))))) :
  filter (λ wo, created_key wo = k) (insert_newest x rows)
  = filter (λ wo, created_key wo = k) (x :: rows).
Proof.
  induction rows as [|y rows IH]; [done|]. simpl.
  destruct (older x y) eqn:Hxy; [|done].
  rewrite filter_cons, IH, !filter_cons.
  apply older_spec in Hxy.
  destruct (decide (created_key y = k)) as [Hy|Hy];
    destruct (decide (created_key x = k)) as [Hx|Hx]; try done.
  rewrite Hx, <-Hy in Hxy. by apply (irreflexivity lexico) in Hxy.
Qed.

Lemma sort_newest_first_stable rows (k : N * (N * (N * (N * (N * (N * N)))))) :
  filter (λ wo, created_key wo = k) (sort_newest_first rows)
  = filter (λ wo, created_key wo = k) rows.
Proof.
  induction rows as [|x rows IH]; [done|]. simpl.
  by rewrite insert_newest_stable, !filter_cons, IH.
Qed.

(** X16.  When [list] has rows to show, it shows the newest part of the
    selected rows, newest first: the rows shown followed by the rows left out
    are the selected rows sorted by creation time, later ones first and rows
    of the same time in their selected order.  Without a limit, or with the
    limit 0, all rows are shown; a positive limit shows that many rows at
    most; a negative limit leaves out that many of the oldest rows. *)
Theorem list_shows_newest_first (index : WorkOrderIndex.t) (args : Args) rows :
  select index args = inr rows → rows ≠ [] →
  ∃ shown left_out,
    list_command index args = Listed shown
    ∧ shown ++ left_out ≡ₚ rows
    ∧ StronglySorted not_older (shown ++ left_out)
    ∧ (∀ k, filter (λ wo, created_key wo = k) (shown ++ left_out)
            = filter (λ wo, created_key wo = k) rows)
    ∧ length shown
      = match limit args with
        | None => length rows
        | Some n =>
            if decide (n = 0%Z) then length rows
            else if (0 <=? n)%Z then Z.to_nat n `min` length rows
            else length rows - Z.to_nat (- n)
        end.
Proof.
  intros Hselect Hrows. unfold list_command. rewrite Hselect.
  destruct rows as [|row rows]; [done|].
  set (selected := row :: rows) in *. clearbody selected.
  assert (length (sort_newest_first selected) = length selected) as Hlen
    by by rewrite sort_newest_first_perm.
  assert (∀ n, take n (sort_newest_first selected) ++ drop n (sort_newest_first selected)
               = sort_newest_first selected) as Hsplit by (intros n; apply take_drop).
  destruct (limit args) as [n|]; [destruct (decide (n = 0%Z)) as [->|Hn]|].
  - exists (sort_newest_first selected), []. rewrite app_nil_r. split_and!; try done.
    + apply sort_newest_first_perm.
    + apply sort_newest_first_sorted.
    + apply sort_newest_first_stable.
  - unfold slice_to. destruct (0 <=? n)%Z.
    + exists (take (Z.to_nat n) (sort_newest_first selected)),
             (drop (Z.to_nat n) (sort_newest_first selected)).
      rewrite Hsplit. split_and!; try done.
      * apply sort_newest_first_perm.
      * apply sort_newest_first_sorted.
      * apply sort_newest_first_stable.
      * rewrite length_take. lia.
    + exists (take (length (sort_newest_first selected) - Z.to_nat (- n))
                (sort_newest_first selected)),
             (drop (length (sort_newest_first selected) - Z.to_nat (- n))
                (sort_newest_first selected)).
      rewrite Hsplit. split_and!; try done.
      * apply sort_newest_first_perm.
      * apply sort_newest_first_sorted.
      * apply sort_newest_first_stable.
      * rewrite length_take. lia.
  - exists (sort_newest_first selected), []. rewrite app_nil_r. split_and!; try done.
    + apply sort_newest_first_perm.
    + apply sort_newest_first_sorted.
    + apply sort_newest_first_stable.
Qed.

Lemma list_shows_newest_first_witness :
  ∃ shown left_out,
    list_command Example.four_orders (mkArgs (Some "queued") None None None (Some 2%Z))
    = Listed shown
    ∧ shown ++ left_out ≡ₚ [Example.wo_1; Example.wo_3; Example.wo_4]
    ∧ length shown = 2.
Proof.
  destruct (list_shows_newest_first Example.four_orders
              (mkArgs (Some "queued") None None None (Some 2%Z))
              [Example.wo_1; Example.wo_3; Example.wo_4] eq_refl)
    as (shown & left_out & Hlist & Hperm & _ & _ & Hlen); [done|].
  by exists shown, left_out.
Defined.

Lemma status_of_value_Ok v s : status_of_value v = Ok s → v = status_value s.
Proof.
  unfold status_of_value, all_statuses. simpl.
  repeat (case_bool_decide; [intros [= <-]; by subst|]). done.
Qed.

Lemma priority_of_value_Ok v p : priority_of_value v = Ok p → v = priority_value p.
Proof.
  unfold priority_of_value, all_priorities. simpl.
  repeat (case_bool_decide; [intros [= <-]; by subst|]). done.
Qed.

Lemma list_command_rows index args rows :
  select index args = inr rows →
  list_command index args = NoneFound ∨ ∃ shown, list_command index args = Listed shown.
Proof.
  intros Hselect. unfold list_command. rewrite Hselect.
  destruct rows; [by left|]. right.
  destruct (limit args) as [n|]; [case_decide|]; eauto.
Qed.

(** X17.  [list] leaves with exit status 1 in two cases only: when a non-empty
    [--status] is not the value of a status, whatever the other options are,
    and when no status is given and a non-empty [--priority] is not the value
    of a priority.  A valid status makes the command ignore [--priority],
    [--assigned] and [--tag], even invalid ones. *)
Theorem list_exits_on_invalid_filter (index : WorkOrderIndex.t) (args : Args) :
  (∀ v, list_command index args = ExitInvalidStatus v
        ↔ given (status args) = Some v ∧ ∀ st, v ≠ status_value st)
  ∧ (∀ v, list_command index args = ExitInvalidPriority v
          ↔ given (status args) = None ∧ given (priority args) = Some v
            ∧ ∀ pr, v ≠ priority_value pr)
  ∧ (∀ st, given (status args) = Some (status_value st) →
           list_command index args
           = list_command index (mkArgs (status args) None None None (limit args))).
Proof.
  split_and!.
  - intros v. split.
    + intros Hexit. destruct (select index args) as [exit|rows] eqn:Hselect.
      * unfold list_command in Hexit. rewrite Hselect in Hexit. subst exit.
        unfold select in Hselect.
        destruct (given (status args)) as [s|].
        -- destruct (status_of_value s) as [st|e] eqn:Hs; [done|].
           injection Hselect as <-. split; [done|]. intros st ->.
           by rewrite status_of_value_value in Hs.
        -- destruct (given (priority args)) as [p|].
           ++ by destruct (priority_of_value p).
           ++ destruct (given (assigned args)); [done|]. by destruct (given (tag args)).
      * destruct (list_command_rows _ _ _ Hselect) as [Hn|[shown Hl]]; congruence.
    + intros [Hs Hv]. unfold list_command, select. rewrite Hs.
      destruct (status_of_value v) as [st|e] eqn:Hst; [|done].
      by destruct (Hv st (status_of_value_Ok _ _ Hst)).
  - intros v. split.
    + intros Hexit. destruct (select index args) as [exit|rows] eqn:Hselect.
      * unfold list_command in Hexit. rewrite Hselect in Hexit. subst exit.
        unfold select in Hselect.
        destruct (given (status args)) as [s|].
        -- by destruct (status_of_value s).
        -- destruct (given (priority args)) as [p|].
           ++ destruct (priority_of_value p) as [pr|e] eqn:Hp; [done|].
              injection Hselect as <-. split_and!; [done..|]. intros pr ->.
              by rewrite priority_of_value_value in Hp.
           ++ destruct (given (assigned args)); [done|]. by destruct (given (tag args)).
      * destruct (list_command_rows _ _ _ Hselect) as [Hn|[shown Hl]]; congruence.
    + intros (Hs & Hp & Hv). unfold list_command, select. rewrite Hs, Hp.
      destruct (priority_of_value v) as [pr|e] eqn:Hpr; [|done].
      by destruct (Hv pr (priority_of_value_Ok _ _ Hpr)).
  - intros st Hst. unfold list_command, select. simpl. by rewrite Hst.
Qed.

Lemma length_prefix (n : nat) (s : string) :
  String.length (Text.prefix n s) = n `min` String.length s.
Proof.
  revert s. induction n as [|n IH]; intros [|c s]; simpl; [done..|]. by rewrite IH.
Qed.

Lemma length_string_app (s t : string) :
  String.length (s +:+ t) = String.length s + String.length t.
Proof.
  induction s as [|c s IH]; [done|].
  change (S (String.length (s +:+ t)) = S (String.length s + String.length t)).
  by rewrite IH.
Qed.

(** X18.  The description shown in a row is the description itself when it
    has at most 100 characters, and otherwise its first 100 characters
    followed by three dots; so it never has more than 103 characters. *)
Theorem short_description_is_bounded (description : string) :
  String.length (short_description description) ≤ 103
  ∧ (String.length description ≤ 100 → short_description description = description)
  ∧ (100 < String.length description →
     short_description description = Text.prefix 100 description +:+ "..."
     ∧ String.length (short_description description) = 103).
Proof.
  unfold short_description.
  destruct (Nat.ltb_spec 100 (String.length description)) as [Hlong|Hshort].
  - rewrite length_string_app, length_prefix.
    change (String.length "...") with 3. split_and!; [lia | lia |].
    intros _. split; [done | lia].
  - split_and!; [lia | done | lia].
Qed.

End list_command.
